(** * instorage: typed, namespaced access over an ordered transactional store

    A shallow embedding of the Go package [instorage] (the codec and key
    helpers of transactions.go, the single-value namespace of
    namespaceSingle.go, the multi-value namespace and the database handle),
    followed by the properties its specification states.

    Conventions of the embedding:
    - a Go [[]byte] is a [list byte]; a Go [string] is a [string], and the
      conversion [[]byte(s)] is [string_to_bytes];
    - a Go [error] result is an [option error] ([None] is [nil]); several
      results are a tuple, in the order of the Go signature;
    - a Go panic is the constructor [Panics] of [outcome];
    - the badger transaction a namespace points to is threaded explicitly
      (the monad [TxnM]): all the accessors built for one [Update] or [View]
      act on that one transaction state;
    - the storage engine (badger) and the codec (encoding/gob) are libraries
      the package calls: the engine is the module [badger], written from the
      contract in the specification; the codec is the class [Gob]. *)

From Stdlib Require Import List String Ascii Strings.Byte NArith ZArith Arith Bool Lia.
From Stdlib Require Import Sorting.Sorted.
From Stdlib Require QArith_base DecimalString.
Import ListNotations.

Set Implicit Arguments.
Local Open Scope list_scope.

(** ** Byte strings *)

Definition bytes := list byte.

Definition string_to_bytes (s : string) : bytes := list_byte_of_string s.

(** [bytes.Compare]: lexicographic order on unsigned bytes. *)
Fixpoint bytes_Compare (a b : bytes) : comparison :=
  match a, b with
  | [], [] => Eq
  | [], _ :: _ => Lt
  | _ :: _, [] => Gt
  | x :: a', y :: b' =>
      match N.compare (Byte.to_N x) (Byte.to_N y) with
      | Eq => bytes_Compare a' b'
      | c => c
      end
  end.

(** [bytes.HasPrefix(s, prefix)]. *)
Fixpoint bytes_HasPrefix (s prefix : bytes) : bool :=
  match prefix, s with
  | [], _ => true
  | _ :: _, [] => false
  | p :: prefix', x :: s' => Byte.eqb x p && bytes_HasPrefix s' prefix'
  end.

(** [bytes.Equal], also the comparison of [string(valueb)] with
    [targetvaluebStr] in [FindKeyByValue]. *)
Definition bytes_Equal (a b : bytes) : bool :=
  match bytes_Compare a b with Eq => true | _ => false end.

(** [bytes.Join(s, sep)]. *)
Fixpoint bytes_Join (s : list bytes) (sep : bytes) : bytes :=
  match s with
  | [] => []
  | [x] => x
  | x :: rest => x ++ sep ++ bytes_Join rest sep
  end.

(** [strings.ContainsRune(name, '\x00')]: the rune 0 is encoded by the single
    byte 0 and no other rune's encoding contains that byte. *)
Definition strings_ContainsNul (name : string) : bool :=
  existsb (Byte.eqb x00) (string_to_bytes name).

(** ** Errors and panics *)

Inductive error : Type :=
| ErrKeyNotFound                          (* badger.ErrKeyNotFound *)
| ErrReadOnlyTxn                          (* badger.ErrReadOnlyTxn *)
| ErrConflict                             (* badger.ErrConflict *)
| EngineError (msg : string)              (* another failure of the engine *)
| GobError (msg : string)                 (* an error of encoding/gob *)
| AppError (msg : string)                 (* an error made by the caller's code *)
| Errorf (context : string) (wrapped : error).
                                          (* fmt.Errorf(context + ": %w", wrapped) *)

Definition error_eq_dec (a b : error) : {a = b} + {a <> b}.
Proof. decide equality; apply string_dec. Defined.

(** [errors.Is(err, target)]: [target] occurs on the chain of wrapped errors. *)
Fixpoint errors_Is (err target : error) : bool :=
  if error_eq_dec err target then true
  else match err with
       | Errorf _ wrapped => errors_Is wrapped target
       | _ => false
       end.

(** The context string of [fmt.Errorf("Op `%v`: %w", name, err)]. *)
Definition op_context (op name : string) : string :=
  (op ++ " `" ++ name ++ "`")%string.

Inductive outcome (A : Type) : Type :=
| Returns (a : A)
| Panics (msg : string).
Arguments Returns {A} a.
Arguments Panics {A} msg.

(** ** Codec (transactions.go) *)

(** The gob encoder and decoder of a Go type, and the type's zero value.
    [encoding/gob] is a library of the Go distribution; the package only
    calls it, so it is an interface here.  The encoding is a function of
    the value: for a type with a Go map inside, whose entries gob writes in
    the order the map happens to be walked, an instance describes one
    run. *)
Class Gob (T : Type) : Type := {
  zero : T;
  gob_Encode : T -> bytes + error;
  gob_Decode : bytes -> T + error
}.

(** A value the codec carries faithfully. *)
Definition gob_roundtrips {T} `{Gob T} (v : T) : Prop :=
  forall b, gob_Encode v = inl b -> gob_Decode b = inl v.

Definition encodeGob {T} `{Gob T} (data : T) : bytes * option error :=
  match gob_Encode data with
  | inr err => ([], Some (Errorf "encodeGob" err))
  | inl buf => (buf, None)
  end.

(** [decodeGob] decodes into a fresh [new(DataT)]; on an error the callers
    drop the pointer, which is the zero value here. *)
Definition decodeGob {DataT} `{Gob DataT} (b : bytes) : DataT * option error :=
  match gob_Decode b with
  | inr err => (zero, Some (Errorf "decodeGob" err))
  | inl data => (data, None)
  end.

Definition addPrefixToKey (prefix key : bytes) : bytes :=
  bytes_Join [prefix; key] [x00].

(** [key[len(prefix)+1:]]; slicing from beyond the length panics. *)
Definition removePrefixFromKey (prefix key : bytes) : outcome bytes :=
  if List.length prefix + 1 <=? List.length key
  then Returns (skipn (List.length prefix + 1) key)
  else Panics "runtime error: slice bounds out of range".

(** ** The storage engine *)

(** The engine (badger) is an external collaborator: its code is no part of
    the package, which knows it through the contract the specification
    states (sections 1, 4.5 and 6).  The module [badger] is that contract. *)
Module badger.

(** A stored pair; [Item.Key()] and the bytes handed to the function
    given to [Item.Value]. *)
Definition Item : Type := (bytes * bytes)%type.
Definition Item_Key (item : Item) : bytes := fst item.
Definition Item_Value {A} (item : Item) (fn : bytes -> A) : A := fn (snd item).

Definition before (a b : Item) : Prop :=
  bytes_Compare (Item_Key a) (Item_Key b) = Lt.

(** Modelled from the spec: the engine's keyspace, "a single flat byte-key
    keyspace" with "ordered iteration by raw byte key": an association list
    in strictly increasing key order. *)
Definition ordered (l : list Item) : Prop := StronglySorted before l.

Fixpoint lookup (key : bytes) (l : list Item) : option Item :=
  match l with
  | [] => None
  | item :: rest =>
      if bytes_Equal (Item_Key item) key then Some item else lookup key rest
  end.

Fixpoint insert (key val : bytes) (l : list Item) : list Item :=
  match l with
  | [] => [(key, val)]
  | item :: rest =>
      match bytes_Compare key (Item_Key item) with
      | Lt => (key, val) :: l
      | Eq => (key, val) :: rest
      | Gt => item :: insert key val rest
      end
  end.

Definition remove (key : bytes) (l : list Item) : list Item :=
  filter (fun item => negb (bytes_Equal (Item_Key item) key)) l.

(** Modelled from the spec: the engine's transaction, "read-write or
    read-only": the pairs it sees (the snapshot it started from with its own
    writes applied), whether it may write, and the engine's verdict on the
    write of a key and value: nil, or the failure it answers with ("wraps
    any failure from the underlying storage engine", spec section 7).  The
    layer does not look into the verdict; it only passes the error on. *)
Record Txn : Type :=
  { items : list Item;
    update : bool;
    verdict : bytes -> bytes -> option error }.

(** The transaction with other pairs. *)
Definition with_items (txn : Txn) (l : list Item) : Txn :=
  {| items := l; update := update txn; verdict := verdict txn |}.

(** Modelled from the spec: "txn.get(key)->bytes|absent". *)
Definition Txn_Get (key : bytes) (txn : Txn) : option Item * option error :=
  match lookup key (items txn) with
  | Some item => (Some item, None)
  | None => (None, Some ErrKeyNotFound)
  end.

(** Modelled from the spec: "txn.set(key, bytes)"; "writes attempted inside
    [a read-only transaction] are rejected by the engine", which checks
    that first; a read-write transaction writes the pair unless the engine
    refuses the entry. *)
Definition Txn_Set (key val : bytes) (txn : Txn) : option error * Txn :=
  if update txn
  then match verdict txn key val with
       | Some err => (Some err, txn)
       | None => (None, with_items txn (insert key val (items txn)))
       end
  else (Some ErrReadOnlyTxn, txn).

(** Modelled from the spec: "txn.delete(key)"; the deletion is an entry
    without a value, checked by the engine as a write is, and recorded
    whether or not the key is present. *)
Definition Txn_Delete (key : bytes) (txn : Txn) : option error * Txn :=
  if update txn
  then match verdict txn key [] with
       | Some err => (Some err, txn)
       | None => (None, with_items txn (remove key (items txn)))
       end
  else (Some ErrReadOnlyTxn, txn).

(** Modelled from the spec: "txn.iterate(start_key)->ordered cursor over
    (key, bytes) with prefix-bounded iteration": the pairs of the
    transaction and those from the current position on. *)
Record Iterator : Type := { all : list Item; rest : list Item }.

Definition NewIterator (txn : Txn) : Iterator :=
  {| all := items txn; rest := items txn |}.

Fixpoint seek (key : bytes) (l : list Item) : list Item :=
  match l with
  | [] => []
  | item :: l' =>
      match bytes_Compare (Item_Key item) key with
      | Lt => seek key l'
      | _ => l
      end
  end.

(** Modelled from the spec: [it.Seek(key)] moves to the first pair whose
    key is not below [key]. *)
Definition Seek (key : bytes) (it : Iterator) : Iterator :=
  {| all := all it; rest := seek key (all it) |}.

(** Modelled from the spec: [it.ValidForPrefix(prefix)], the cursor is on a
    pair and its key starts with [prefix]. *)
Definition ValidForPrefix (prefix : bytes) (it : Iterator) : bool :=
  match rest it with
  | [] => false
  | item :: _ => bytes_HasPrefix (Item_Key item) prefix
  end.

Definition Next (it : Iterator) : Iterator :=
  {| all := all it; rest := tl (rest it) |}.

(** Modelled from the spec: the engine instance, as its committed
    keyspace. *)
Record DB : Type := { store : list Item }.

(** The limits of an entry under the engine's default options, with which
    [Open] opens it. *)
Definition maxKeySize : N := 65000.
Definition ValueLogFileSize : N := 1073741823.

(** [%d] of a length. *)
Definition decimal (n : N) : string :=
  DecimalString.NilZero.string_of_uint (N.to_uint n).

(** The engine's error for an entry that is too large; of its message the
    first sentence is kept (a dump of the bytes follows it). *)
Definition exceedsSize (what : string) (max : N) (b : bytes) : error :=
  EngineError (what ++ " with size " ++ decimal (N.of_nat (List.length b))
               ++ " exceeded " ++ decimal max ++ " limit")%string.

(** Modelled from the spec: "wraps any failure from the underlying storage
    engine".  The checks the engine makes on the key and value of an entry
    before it takes the write: an empty key, a key under its reserved
    prefix, a key of more than 65000 bytes and a value larger than a
    value-log file are refused.  The limit on the size of a whole
    transaction is not among them. *)
Definition entry_error (key val : bytes) : option error :=
  match key with
  | [] => Some (EngineError "Key cannot be empty")
  | _ :: _ =>
      if bytes_HasPrefix key (string_to_bytes "!badger!")
      then Some (EngineError "Key is using a reserved !badger! prefix")
      else if (maxKeySize <? N.of_nat (List.length key))%N
      then Some (exceedsSize "Key" maxKeySize key)
      else if (ValueLogFileSize <? N.of_nat (List.length val))%N
      then Some (exceedsSize "Value" ValueLogFileSize val)
      else None
  end.

(** A transaction of the database sees the committed keyspace; its writes
    are checked as [entry_error] says. *)
Definition NewTransaction (upd : bool) (db : DB) : Txn :=
  {| items := store db; update := upd; verdict := entry_error |}.

(** Modelled from the spec: the commit of a transaction; [verdict] is what
    the engine answers (nil, or a conflict or another failure: "engine-level
    conflicts ... are surfaced as errors, not retried by this layer"). *)
Definition Commit (verdict : option error) (txn : Txn) (db : DB)
  : option error * DB :=
  match verdict with
  | Some err => (Some err, db)
  | None => (None, {| store := items txn |})
  end.

(** Modelled from the spec: the engine's [db.Update(fn)], "opens a
    read-write transaction ... runs fn; any error returned by fn discards all
    writes made in that transaction"; the transaction is committed when [fn]
    returns nil, and a panic of [fn] passes through. *)
Definition Update (fn : Txn -> outcome (option error * Txn))
    (verdict : option error) (db : DB) : outcome (option error * DB) :=
  match fn (NewTransaction true db) with
  | Panics msg => Panics msg
  | Returns (Some err, _) => Returns (Some err, db)
  | Returns (None, txn) => Returns (Commit verdict txn db)
  end.

(** Modelled from the spec: the engine's [db.View(fn)], "same but
    read-only"; the transaction is always discarded. *)
Definition View (fn : Txn -> outcome (option error * Txn)) (db : DB)
  : outcome (option error * DB) :=
  match fn (NewTransaction false db) with
  | Panics msg => Panics msg
  | Returns (err, _) => Returns (err, db)
  end.

(** Modelled from the spec: "engine.drop_all()". *)
Definition DropAll (db : DB) : option error * DB :=
  (None, {| store := [] |}).

(** Modelled from the spec: "engine.drop_prefix(prefix)", which erases the
    keys that start with [prefix]. *)
Definition DropPrefix (prefix : bytes) (db : DB) : option error * DB :=
  (None,
   {| store := filter (fun item => negb (bytes_HasPrefix (Item_Key item) prefix))
                      (store db) |}).

End badger.

(** ** Transaction handle and the monad of transaction-scoped operations *)

(** [Txn] wraps the pointer to the engine transaction.  The transaction the
    pointer designates is the state threaded by [TxnM]. *)
Variant TxnPtr : Type := badgertxn_ptr.
Record Txn : Type := { badgertxn : TxnPtr }.

Definition TxnM (A : Type) : Type := badger.Txn -> outcome (A * badger.Txn).

Definition ret {A} (a : A) : TxnM A := fun txn => Returns (a, txn).

Definition bind {A B} (m : TxnM A) (k : A -> TxnM B) : TxnM B :=
  fun txn =>
    match m txn with
    | Panics msg => Panics msg
    | Returns (a, txn') => k a txn'
    end.

Definition panic {A} (msg : string) : TxnM A := fun _ => Panics msg.

(** Engine calls lifted to the monad. *)
Definition txn_Get (key : bytes) : TxnM (option badger.Item * option error) :=
  fun txn => Returns (badger.Txn_Get key txn, txn).
Definition txn_Set (key val : bytes) : TxnM (option error) :=
  fun txn => Returns (badger.Txn_Set key val txn).
Definition txn_Delete (key : bytes) : TxnM (option error) :=
  fun txn => Returns (badger.Txn_Delete key txn).
Definition txn_NewIterator : TxnM badger.Iterator :=
  fun txn => Returns (badger.NewIterator txn, txn).

Declare Scope txn_scope.
Delimit Scope txn_scope with txn.
Notation "x <- m ;; k" := (bind m (fun x => k))
  (at level 61, m at next level, right associativity) : txn_scope.
Notation "' pat <- m ;; k" := (bind m (fun x => match x with pat => k end))
  (at level 61, pat pattern, m at next level, right associativity) : txn_scope.

Definition lift {A} (o : outcome A) : TxnM A :=
  fun txn =>
    match o with
    | Panics msg => Panics msg
    | Returns a => Returns (a, txn)
    end.

Local Open Scope txn_scope.

(** ** Single-value namespace (namespaceSingle.go) *)

Record NamespaceSingle (ValueT : Type) : Type :=
  { nss_txn : Txn; nss_name : string }.

Definition NewNamespaceSingle {ValueT : Type} (txn : Txn) (name : string)
  : outcome (NamespaceSingle ValueT) :=
  if String.eqb name "" then Panics "name must not be empty"
  else if strings_ContainsNul name then Panics "name must not contain \x00 symbol"
  else Returns {| nss_txn := txn; nss_name := name |}.

Section Single.
Context {ValueT : Type} `{Gob ValueT}.
Variable nss : NamespaceSingle ValueT.

Definition NamespaceSingle_Set (value : ValueT) : TxnM (option error) :=
  let (valueb, err) := encodeGob value in
  match err with
  | Some err => ret (Some (Errorf (op_context "Set" (nss_name nss)) err))
  | None =>
      err <- txn_Set (string_to_bytes (nss_name nss)) valueb ;;
      match err with
      | Some err => ret (Some (Errorf (op_context "Set" (nss_name nss)) err))
      | None => ret None
      end
  end.

Definition NamespaceSingle_Get : TxnM (ValueT * option error) :=
  '(item, err) <- txn_Get (string_to_bytes (nss_name nss)) ;;
  match err, item with
  | Some err, _ =>
      if errors_Is err ErrKeyNotFound then ret (zero, None)
      else ret (zero, Some (Errorf (op_context "Get" (nss_name nss)) err))
  | None, None => panic "runtime error: invalid memory address or nil pointer dereference"
  | None, Some item =>
      let (valuePtr, err) := badger.Item_Value item (fun valueb => decodeGob valueb) in
      match err with
      | Some err => ret (zero, Some (Errorf (op_context "Get" (nss_name nss)) err))
      | None => ret (valuePtr, None)
      end
  end.

Definition NamespaceSingle_Delete : TxnM (option error) :=
  err <- txn_Delete (string_to_bytes (nss_name nss)) ;;
  match err with
  | Some err =>
      if errors_Is err ErrKeyNotFound then ret None
      else ret (Some (Errorf (op_context "Delete" (nss_name nss)) err))
  | None => ret None
  end.
End Single.

(** ** Multi-value namespace *)

Record NamespaceMultiple (KeyT ValueT : Type) : Type :=
  { nsm_txn : Txn; nsm_name : string }.

Definition NewNamespaceMultiple {KeyT ValueT : Type} (txn : Txn) (name : string)
  : outcome (NamespaceMultiple KeyT ValueT) :=
  if String.eqb name "" then Panics "name must not be empty"
  else if strings_ContainsNul name then Panics "name must not contain \x00 symbol"
  else Returns {| nsm_txn := txn; nsm_name := name |}.

Section Multiple.
Context {KeyT ValueT : Type} `{Gob KeyT} `{Gob ValueT}.
Variable nsm : NamespaceMultiple KeyT ValueT.

Definition NamespaceMultiple_Set (key : KeyT) (value : ValueT) : TxnM (option error) :=
  let (keyb, err) := encodeGob key in
  match err with
  | Some err => ret (Some (Errorf (op_context "Set" (nsm_name nsm)) err))
  | None =>
      let (valueb, err) := encodeGob value in
      match err with
      | Some err => ret (Some (Errorf (op_context "Set" (nsm_name nsm)) err))
      | None =>
          err <- txn_Set (addPrefixToKey (string_to_bytes (nsm_name nsm)) keyb) valueb ;;
          match err with
          | Some err => ret (Some (Errorf (op_context "Set" (nsm_name nsm)) err))
          | None => ret None
          end
      end
  end.

Definition NamespaceMultiple_Get (key : KeyT) : TxnM (ValueT * bool * option error) :=
  let (keyb, err) := encodeGob key in
  match err with
  | Some err => ret (zero, false, Some (Errorf (op_context "Get" (nsm_name nsm)) err))
  | None =>
      '(item, err) <- txn_Get (addPrefixToKey (string_to_bytes (nsm_name nsm)) keyb) ;;
      match err, item with
      | Some err, _ =>
          if errors_Is err ErrKeyNotFound then ret (zero, false, None)
          else ret (zero, false, Some (Errorf (op_context "Get" (nsm_name nsm)) err))
      | None, None =>
          panic "runtime error: invalid memory address or nil pointer dereference"
      | None, Some item =>
          let (valuePtr, err) := badger.Item_Value item (fun valueb => decodeGob valueb) in
          match err with
          | Some err =>
              ret (zero, false, Some (Errorf (op_context "Get" (nsm_name nsm)) err))
          | None => ret (valuePtr, true, None)
          end
      end
  end.

Definition NamespaceMultiple_Delete (key : KeyT) : TxnM (option error) :=
  let (keyb, err) := encodeGob key in
  match err with
  | Some err => ret (Some (Errorf (op_context "Delete" (nsm_name nsm)) err))
  | None =>
      err <- txn_Delete (addPrefixToKey (string_to_bytes (nsm_name nsm)) keyb) ;;
      match err with
      | Some err => ret (Some (Errorf (op_context "Delete" (nsm_name nsm)) err))
      | None => ret None
      end
  end.

(** *** Iter *)

Section Iter.
(** The visitor is a closure: [St] is the state it captures. *)
Context {St : Type}.
Variable viewer : KeyT -> ValueT -> St -> (bool * option error) * St.

(** The function given to [item.Value]; it yields [stop], the error and
    the visitor's state. *)
Definition Iter_value (prefix k valueb : bytes) (s : St)
  : outcome (bool * option error * St) :=
  match removePrefixFromKey prefix k with
  | Panics msg => Panics msg
  | Returns keyb =>
      let (keyPtr, err) := decodeGob (DataT := KeyT) keyb in
      match err with
      | Some err => Returns (false, Some err, s)
      | None =>
          let (valuePtr, err) := decodeGob (DataT := ValueT) valueb in
          match err with
          | Some err => Returns (false, Some err, s)
          | None => Returns (viewer keyPtr valuePtr s)
          end
      end
  end.

(** The loop [for it.Seek(prefix); it.ValidForPrefix(prefix); it.Next()],
    on the pairs from the cursor's position on; leaving the loop is the
    final [return nil]. *)
Fixpoint Iter_loop (prefix : bytes) (pending : list badger.Item) (s : St)
  : outcome (option error * St) :=
  match pending with
  | [] => Returns (None, s)
  | item :: pending' =>
      if bytes_HasPrefix (badger.Item_Key item) prefix then
        let k := badger.Item_Key item in
        match badger.Item_Value item (fun valueb => Iter_value prefix k valueb s) with
        | Panics msg => Panics msg
        | Returns (_, Some err, s') =>
            Returns (Some (Errorf (op_context "Iter" (nsm_name nsm)) err), s')
        | Returns (stop, None, s') =>
            if stop then Returns (None, s') else Iter_loop prefix pending' s'
        end
      else Returns (None, s)
  end.

Definition NamespaceMultiple_Iter (s : St) : TxnM (option error * St) :=
  it <- txn_NewIterator ;;
  let prefix := string_to_bytes (nsm_name nsm) in
  lift (Iter_loop prefix (badger.rest (badger.Seek prefix it)) s).
End Iter.

(** *** FindKeyByValue *)

(** The function given to [item.Value]; it yields the variables [key] and
    [stop] and the error. *)
Definition FindKeyByValue_value (prefix targetvalueb k valueb : bytes) (key : KeyT)
  : outcome (KeyT * bool * option error) :=
  if negb (bytes_Equal valueb targetvalueb) then Returns (key, false, None)
  else
    match removePrefixFromKey prefix k with
    | Panics msg => Panics msg
    | Returns keyb =>
        let (keyPtr, err) := decodeGob (DataT := KeyT) keyb in
        match err with
        | Some err => Returns (key, false, Some err)
        | None => Returns (keyPtr, true, None)
        end
    end.

(** The same loop as in [Iter]; leaving it is the final
    [return key, true, nil]. *)
Fixpoint FindKeyByValue_loop (prefix targetvalueb : bytes)
    (pending : list badger.Item) (key : KeyT)
  : outcome (KeyT * bool * option error) :=
  match pending with
  | [] => Returns (key, true, None)
  | item :: pending' =>
      if bytes_HasPrefix (badger.Item_Key item) prefix then
        let k := badger.Item_Key item in
        match badger.Item_Value item
                (fun valueb => FindKeyByValue_value prefix targetvalueb k valueb key) with
        | Panics msg => Panics msg
        | Returns (key', _, Some err) =>
            Returns (key', false,
                     Some (Errorf (op_context "FindKeyByValue" (nsm_name nsm)) err))
        | Returns (key', stop, None) =>
            if stop then Returns (key', true, None)
            else FindKeyByValue_loop prefix targetvalueb pending' key'
        end
      else Returns (key, true, None)
  end.

Definition NamespaceMultiple_FindKeyByValue (value : ValueT)
  : TxnM (KeyT * bool * option error) :=
  let (targetvalueb, err) := encodeGob value in
  match err with
  | Some err =>
      ret (zero, false, Some (Errorf (op_context "FindKeyByValue" (nsm_name nsm)) err))
  | None =>
      it <- txn_NewIterator ;;
      let prefix := string_to_bytes (nsm_name nsm) in
      lift (FindKeyByValue_loop prefix targetvalueb
              (badger.rest (badger.Seek prefix it)) zero)
  end.
End Multiple.

(** ** Database handle *)

(** The handle owns the engine and the accessor builder.  The field
    [stopGCRepeater] (the stop function of the background value-log
    collection) holds no data of the keyspace and is left out. *)
Record DB (TxnAPIT : Type) : Type :=
  { badgerdb : badger.DB; txnAPIBuilder : Txn -> TxnAPIT }.

(** The discard ratio [0.1] of the first value-log collection. *)
Definition one_tenth : QArith_base.Q := QArith_base.Qmake 1%Z 10%positive.

(** What [Open] asks of the engine, in order. *)
Inductive EngineCall : Type :=
| call_Open (dbpath : string)
| call_RunValueLogGC (discardRatio : QArith_base.Q)
| call_Flatten (workers : nat)
| call_StartRepeater.

(** What the engine answers: the database found (or created) at a path, and
    the result of flattening it. *)
Record Engine : Type :=
  { engine_Open : string -> badger.DB + error;
    engine_Flatten : nat -> badger.DB -> option error }.

(** [Open]; a nil [txnAPIBuilder] is [None].  The first component lists the
    calls made to the engine. *)
Definition Open {TxnAPIT : Type} (engine : Engine) (dbpath : string)
    (txnAPIBuilder : option (Txn -> TxnAPIT))
  : list EngineCall * outcome (option (DB TxnAPIT) * option error) :=
  match txnAPIBuilder with
  | None => ([], Panics "txnAPIBuilder must not be nil")
  | Some builder =>
      match engine_Open engine dbpath with
      | inr err => ([call_Open dbpath], Returns (None, Some (Errorf "Open" err)))
      | inl bdb =>
          match engine_Flatten engine 16 bdb with
          | Some err =>
              ([call_Open dbpath; call_RunValueLogGC one_tenth; call_Flatten 16],
               Returns (None, Some (Errorf "Open" err)))
          | None =>
              ([call_Open dbpath; call_RunValueLogGC one_tenth; call_Flatten 16;
                call_StartRepeater],
               Returns (Some {| badgerdb := bdb; txnAPIBuilder := builder |}, None))
          end
      end
  end.

Section Database.
Context {TxnAPIT : Type}.
Variable db : DB TxnAPIT.

Definition with_engine (bdb : badger.DB) : DB TxnAPIT :=
  {| badgerdb := bdb; txnAPIBuilder := txnAPIBuilder db |}.

(** [verdict] is the engine's answer to the commit. *)
Definition Update (updater : TxnAPIT -> TxnM (option error)) (verdict : option error)
  : outcome (option error * DB TxnAPIT) :=
  match badger.Update
          (fun badgertxn =>
             let txnAPI := txnAPIBuilder db {| badgertxn := badgertxn_ptr |} in
             updater txnAPI badgertxn)
          verdict (badgerdb db) with
  | Panics msg => Panics msg
  | Returns (Some err, bdb) => Returns (Some (Errorf "Update" err), with_engine bdb)
  | Returns (None, bdb) => Returns (None, with_engine bdb)
  end.

Definition View (viewer : TxnAPIT -> TxnM (option error))
  : outcome (option error * DB TxnAPIT) :=
  match badger.View
          (fun badgertxn =>
             let txnAPI := txnAPIBuilder db {| badgertxn := badgertxn_ptr |} in
             viewer txnAPI badgertxn)
          (badgerdb db) with
  | Panics msg => Panics msg
  | Returns (Some err, bdb) => Returns (Some (Errorf "View" err), with_engine bdb)
  | Returns (None, bdb) => Returns (None, with_engine bdb)
  end.

Definition DropAll : option error * DB TxnAPIT :=
  match badger.DropAll (badgerdb db) with
  | (Some err, bdb) => (Some (Errorf "DropAll" err), with_engine bdb)
  | (None, bdb) => (None, with_engine bdb)
  end.

Definition DropNamespace (name : string) : option error * DB TxnAPIT :=
  match badger.DropPrefix (string_to_bytes name) (badgerdb db) with
  | (Some err, bdb) => (Some (Errorf "DropNamespace" err), with_engine bdb)
  | (None, bdb) => (None, with_engine bdb)
  end.
End Database.

(** ** Sample codecs *)

(** Two instances of [Gob], for Go's [string] and [int64], which supply the
    concrete data of the examples below.  They lay a value out in the manner
    of gob's wire format for a top-level value: the byte count of the
    message, the type id, a zero field delta, then the value (a string as
    its length and bytes, an integer with its sign folded into bit 0).  The
    general theorems hold for every instance and do not depend on these. *)

Definition byte_of_N (n : N) : byte :=
  match Byte.of_N n with Some b => b | None => x00 end.

(** The big-endian bytes of [n], without leading zeros. *)
Fixpoint be_bytes (fuel : nat) (n : N) (acc : bytes) : bytes :=
  match fuel with
  | O => acc
  | S fuel' =>
      if (n =? 0)%N then acc
      else be_bytes fuel' (n / 256)%N (byte_of_N (n mod 256)%N :: acc)
  end.

Fixpoint be_value (b : bytes) (acc : N) : N :=
  match b with
  | [] => acc
  | x :: b' => be_value b' (acc * 256 + Byte.to_N x)%N
  end.

(** An unsigned integer: one byte below 128, else the negated byte count
    followed by the big-endian bytes. *)
Definition encodeUint (n : N) : bytes :=
  if (n <? 128)%N then [byte_of_N n]
  else
    let b := be_bytes 8 n [] in
    byte_of_N (256 - N.of_nat (List.length b))%N :: b.

Definition decodeUint (b : bytes) : option (N * bytes) :=
  match b with
  | [] => None
  | x :: rest =>
      if (Byte.to_N x <? 128)%N then Some (Byte.to_N x, rest)
      else
        let n := N.to_nat (256 - Byte.to_N x)%N in
        if (n <=? 8) && (n <=? List.length rest)
        then Some (be_value (firstn n rest) 0%N, skipn n rest)
        else None
  end.

Definition sample_message (typeid : byte) (payload : bytes) : bytes :=
  let body := typeid :: x00 :: payload in
  encodeUint (N.of_nat (List.length body)) ++ body.

Definition sample_payload (typeid : byte) (b : bytes) : bytes + error :=
  match decodeUint b with
  | Some (n, typeid' :: x00 :: payload) =>
      if (n =? N.of_nat (2 + List.length payload))%N && Byte.eqb typeid' typeid
      then inl payload
      else inr (GobError "type mismatch or short message")
  | _ => inr (GobError "unexpected EOF")
  end.

#[export] Instance Gob_string : Gob string := {
  zero := ""%string;
  gob_Encode s :=
    let data := string_to_bytes s in
    inl (sample_message x0c (encodeUint (N.of_nat (List.length data)) ++ data));
  gob_Decode b :=
    match sample_payload x0c b with
    | inr err => inr err
    | inl payload =>
        match decodeUint payload with
        | Some (n, data) =>
            if (n =? N.of_nat (List.length data))%N
            then inl (string_of_list_byte data)
            else inr (GobError "bad string length")
        | None => inr (GobError "unexpected EOF")
        end
    end
}.

#[export] Instance Gob_int64 : Gob Z := {
  zero := 0%Z;
  gob_Encode i :=
    if ((- 2 ^ 63 <=? i) && (i <? 2 ^ 63))%Z
    then
      let u := if (i <? 0)%Z then (2 * (- i - 1) + 1)%Z else (2 * i)%Z in
      inl (sample_message x04 (encodeUint (Z.to_N u)))
    else inr (GobError "value out of range");
  gob_Decode b :=
    match sample_payload x04 b with
    | inr err => inr err
    | inl payload =>
        match decodeUint payload with
        | Some (u, []) =>
            if N.odd u then inl (- Z.of_N (u / 2) - 1)%Z else inl (Z.of_N (u / 2))
        | _ => inr (GobError "bad integer")
        end
    end
}.

(** ** Cursor runs *)

(** The pairs a cursor shows from its position on while
    [ValidForPrefix prefix] holds. *)
Fixpoint valid_run (prefix : bytes) (pending : list badger.Item)
  : list badger.Item :=
  match pending with
  | [] => []
  | item :: pending' =>
      if bytes_HasPrefix (badger.Item_Key item) prefix
      then item :: valid_run prefix pending'
      else []
  end.

(** ** The traversal in the words of the specification *)

(** The pairs of the transaction whose encoded key starts with the prefix,
    in the order of the keyspace. *)
Definition namespace_entries (prefix : bytes) (l : list badger.Item)
  : list badger.Item :=
  filter (fun item => bytes_HasPrefix (badger.Item_Key item) prefix) l.

Section Traversal.
Context {KeyT ValueT St : Type} `{Gob KeyT} `{Gob ValueT}.
Variable nsm : NamespaceMultiple KeyT ValueT.
Variable viewer : KeyT -> ValueT -> St -> (bool * option error) * St.

(** The typed pair of a stored pair: the key is decoded from the bytes after
    the prefix and its separator, the value from the stored bytes. *)
Definition decode_pair (item : badger.Item) : (KeyT * ValueT) + error :=
  let keyb := skipn (List.length (string_to_bytes (nsm_name nsm)) + 1)
                    (badger.Item_Key item) in
  match decodeGob (DataT := KeyT) keyb with
  | (_, Some err) => inr err
  | (key, None) =>
      match decodeGob (DataT := ValueT) (snd item) with
      | (_, Some err) => inr err
      | (value, None) => inl (key, value)
      end
  end.

(** Visit the pairs in order: a pair that fails to decode, or a visitor
    error, aborts with that error (under the context of [Iter]); a visitor
    that asks to stop ends the traversal without error. *)
Fixpoint visit_pairs (entries : list badger.Item) (s : St) : option error * St :=
  match entries with
  | [] => (None, s)
  | item :: entries' =>
      match decode_pair item with
      | inr err => (Some (Errorf (op_context "Iter" (nsm_name nsm)) err), s)
      | inl (key, value) =>
          match viewer key value s with
          | (_, Some err, s') =>
              (Some (Errorf (op_context "Iter" (nsm_name nsm)) err), s')
          | (true, None, s') => (None, s')
          | (false, None, s') => visit_pairs entries' s'
          end
      end
  end.
End Traversal.

(** A visitor that records what it is shown and never stops. *)
Definition record_all {KeyT ValueT : Type} (key : KeyT) (value : ValueT)
    (seen : list (KeyT * ValueT)) : bool * option error * list (KeyT * ValueT) :=
  (false, None, seen ++ [(key, value)]).

(** A visitor that records the first pair and asks to stop. *)
Definition record_first {KeyT ValueT : Type} (key : KeyT) (value : ValueT)
    (seen : list (KeyT * ValueT)) : bool * option error * list (KeyT * ValueT) :=
  (true, None, seen ++ [(key, value)]).

(** ** Sample data *)

Definition the_txn : Txn := {| badgertxn := badgertxn_ptr |}.

Definition DataA : NamespaceSingle Z :=
  {| nss_txn := the_txn; nss_name := "data_a" |}.

Definition DataB : NamespaceMultiple string string :=
  {| nsm_txn := the_txn; nsm_name := "data_b" |}.

Definition empty_txn : badger.Txn :=
  {| badger.items := []; badger.update := true;
     badger.verdict := badger.entry_error |}.

(** The transaction state an operation leaves behind. *)
Definition state_after {A : Type} (m : TxnM A) (txn : badger.Txn) : badger.Txn :=
  match m txn with
  | Returns (_, txn') => txn'
  | Panics _ => txn
  end.

(** The writes of the README's example, with a second key. *)
Definition sample_txn : badger.Txn :=
  state_after
    (_ <- NamespaceSingle_Set DataA 99999%Z ;;
     _ <- NamespaceMultiple_Set DataB "abcd"%string "efgh"%string ;;
     NamespaceMultiple_Set DataB "1234"%string "5678"%string)
    empty_txn.

(** A single-value namespace under the name of [DataB], and a transaction
    in which it has been set. *)
Definition DataB_single : NamespaceSingle string :=
  {| nss_txn := the_txn; nss_name := "data_b" |}.

Definition clash_txn : badger.Txn :=
  state_after
    (_ <- NamespaceMultiple_Set DataB "1234"%string "efgh"%string ;;
     NamespaceSingle_Set DataB_single "5678"%string)
    empty_txn.

(** Two multi-value namespaces whose names are "d" and "d?\n\f", a
    transaction in which only the second has been written, and the key that
    the first byte after "d?" onwards of the written key decodes to. *)
Definition name_d2 : string := string_of_list_byte [x64; x3f; x0a; x0c].

Definition NsD : NamespaceMultiple string string :=
  {| nsm_txn := the_txn; nsm_name := "d" |}.

Definition NsD2 : NamespaceMultiple string string :=
  {| nsm_txn := the_txn; nsm_name := name_d2 |}.

Definition foreign_txn : badger.Txn :=
  state_after (NamespaceMultiple_Set NsD2 "xxxx"%string "5678"%string) empty_txn.

Definition foreign_key : string :=
  string_of_list_byte [x0c; x00; x04; x78; x78; x78; x78].

(** Two multi-value namespaces, the name of one a prefix of the other's, as
    an accessor bundle, and an empty database that builds it. *)
Record PrefixAPI : Type :=
  { Data : NamespaceMultiple string string;
    Data2 : NamespaceMultiple string string }.

Definition prefixAPIBuilder (txn : Txn) : PrefixAPI :=
  {| Data := {| nsm_txn := txn; nsm_name := "data" |};
     Data2 := {| nsm_txn := txn; nsm_name := "data2" |} |}.

Definition empty_db : DB PrefixAPI :=
  {| badgerdb := {| badger.store := [] |}; txnAPIBuilder := prefixAPIBuilder |}.

(** An updater that writes through [Data2] and returns nil, and one that
    writes and then fails. *)
Definition write_data2 (txnAPI : PrefixAPI) : TxnM (option error) :=
  NamespaceMultiple_Set (Data2 txnAPI) "1234"%string "5678"%string.

Definition write_then_fail (txnAPI : PrefixAPI) : TxnM (option error) :=
  err <- NamespaceMultiple_Set (Data2 txnAPI) "1234"%string "5678"%string ;;
  match err with
  | Some err => ret (Some err)
  | None => ret (Some (AppError "rejected"))
  end.

(** The engine of a machine where every path holds an empty database. *)
Definition fresh_engine : Engine :=
  {| engine_Open := fun _ => inl {| badger.store := [] |};
     engine_Flatten := fun _ _ => None |}.

(** The bytes of the sample values. *)
Definition enc_1234 : bytes := [x07; x0c; x00; x04; x31; x32; x33; x34].
Definition enc_5678 : bytes := [x07; x0c; x00; x04; x35; x36; x37; x38].
Definition enc_efgh : bytes := [x07; x0c; x00; x04; x65; x66; x67; x68].
Definition enc_99999 : bytes := [x06; x04; x00; xfd; x03; x0d; x3e].

(** The pair a single-value namespace named "data_b" stores, and the pair
    [write_data2] stores. *)
Definition bare_item : badger.Item := (string_to_bytes "data_b", enc_5678).
Definition written_data2 : badger.Item :=
  (string_to_bytes "data2" ++ x00 :: enc_1234, enc_5678).

(** ** Restoring a backup *)

Section Restore.
Context {TxnAPIT : Type}.

(** Modelled from the spec: "engine.restore(source)".  [Reader] is the
    [io.Reader] of the backup stream and [engine_Load] what the engine's
    [Load(r, 64)] answers and leaves in the database; the layer does not
    look into either. *)
Variable Reader : Type.
Variable engine_Load : Reader -> nat -> badger.DB -> option error * badger.DB.
Variable engine : Engine.
Variable db : DB TxnAPIT.

Definition LoadBackup (r : Reader) : option error * DB TxnAPIT :=
  match badger.DropAll (badgerdb db) with
  | (Some err, bdb) => (Some (Errorf "LoadBackup" err), with_engine db bdb)
  | (None, bdb) =>
      match engine_Load r 64 bdb with
      | (Some err, bdb') => (Some (Errorf "LoadBackup" err), with_engine db bdb')
      | (None, bdb') =>
          match engine_Flatten engine 16 bdb' with
          | Some err => (Some (Errorf "LoadBackup" err), with_engine db bdb')
          | None => (None, with_engine db bdb')
          end
      end
  end.
End Restore.

(** ** More sample data *)


(** A codec for a Go type that gob rejects (a function value). *)
Inductive Unencodable : Type := a_func.

#[export] Instance Gob_Unencodable : Gob Unencodable := {
  zero := a_func;
  gob_Encode _ := inr (GobError "gob: type not supported");
  gob_Decode _ := inr (GobError "gob: type not supported")
}.

(** A backup stream given as its pairs, with the error the reader ends in
    (if any), and an engine that writes the pairs it is given. *)
Definition ListReader : Type := (list badger.Item * option error)%type.

Definition load_pairs (r : ListReader) (workers : nat) (bdb : badger.DB)
  : option error * badger.DB :=
  (snd r,
   {| badger.store :=
        fold_left (fun l item => badger.insert (fst item) (snd item) l)
                  (fst r) (badger.store bdb) |}).

(** A database holding the pairs of [sample_txn]. *)
Definition sample_db : DB PrefixAPI :=
  {| badgerdb := {| badger.store := badger.items sample_txn |};
     txnAPIBuilder := prefixAPIBuilder |}.

(** A single-value namespace of the type gob rejects. *)
Definition Callback : NamespaceSingle Unencodable :=
  {| nss_txn := the_txn; nss_name := "callback" |}.

(** A single-value namespace under the engine's reserved prefix, and a key
    of 70000 bytes. *)
Definition Reserved : NamespaceSingle string :=
  {| nss_txn := the_txn; nss_name := "!badger!x" |}.

Definition long_key : string := string_of_list_byte (repeat x78 (N.to_nat 70000)).

(** * Properties *)

(** ** Byte order and prefixes *)

Lemma to_N_inj (x y : byte) : Byte.to_N x = Byte.to_N y -> x = y.
Proof.
  intros E. pose proof (Byte.of_to_N x) as Hx. rewrite E, Byte.of_to_N in Hx.
  now inversion Hx.
Qed.

Lemma byte_eqb_eq (x y : byte) : Byte.eqb x y = true <-> x = y.
Proof. split; [apply Byte.byte_dec_bl | apply Byte.byte_dec_lb]. Qed.

Lemma byte_eqb_neq (x y : byte) : Byte.eqb x y = false <-> x <> y.
Proof.
  split.
  - apply Byte.eqb_false.
  - intros N. destruct (Byte.eqb x y) eqn:E; [|reflexivity].
    now apply byte_eqb_eq in E.
Qed.

Ltac byte_order x y :=
  let E := fresh "E" in
  destruct (N.compare_spec (Byte.to_N x) (Byte.to_N y)) as [E|E|E];
  [apply to_N_inj in E; subst | |].

Lemma bytes_Compare_refl (a : bytes) : bytes_Compare a a = Eq.
Proof. induction a as [|x a IH]; simpl; [|rewrite N.compare_refl]; auto. Qed.

Lemma bytes_Compare_eq (a b : bytes) : bytes_Compare a b = Eq <-> a = b.
Proof.
  split; [|intros ->; apply bytes_Compare_refl].
  revert b; induction a as [|x a IH]; intros [|y b]; simpl; try discriminate; auto.
  byte_order x y; try discriminate. intros E; f_equal; auto.
Qed.

Lemma bytes_Equal_true (a b : bytes) : bytes_Equal a b = true <-> a = b.
Proof.
  unfold bytes_Equal. rewrite <- bytes_Compare_eq.
  destruct (bytes_Compare a b); split; congruence.
Qed.

Lemma bytes_Equal_false (a b : bytes) : bytes_Equal a b = false <-> a <> b.
Proof.
  rewrite <- bytes_Equal_true. destruct (bytes_Equal a b); split; congruence.
Qed.

Lemma bytes_Equal_refl (a : bytes) : bytes_Equal a a = true.
Proof. now apply bytes_Equal_true. Qed.

Lemma bytes_Compare_antisym (a b : bytes) :
  bytes_Compare b a = CompOpp (bytes_Compare a b).
Proof.
  revert b; induction a as [|x a IH]; intros [|y b]; simpl; auto.
  rewrite (N.compare_antisym (Byte.to_N x) (Byte.to_N y)).
  destruct (N.compare (Byte.to_N x) (Byte.to_N y)); simpl; auto.
Qed.

Lemma bytes_Compare_trans (a b c : bytes) :
  bytes_Compare a b = Lt -> bytes_Compare b c = Lt -> bytes_Compare a c = Lt.
Proof.
  revert b c; induction a as [|x a IH]; intros [|y b] [|z c]; simpl;
    try discriminate; auto.
  destruct (N.compare (Byte.to_N x) (Byte.to_N y)) eqn:Exy; try discriminate;
    destruct (N.compare (Byte.to_N y) (Byte.to_N z)) eqn:Eyz; try discriminate;
    intros Hab Hbc.
  - apply N.compare_eq in Exy, Eyz. rewrite Exy, Eyz, N.compare_refl. eauto.
  - apply N.compare_eq in Exy. now rewrite Exy, Eyz.
  - apply N.compare_eq in Eyz. now rewrite <- Eyz, Exy.
  - assert (L : (Byte.to_N x < Byte.to_N z)%N) by (eapply N.lt_trans; eauto).
    unfold N.lt in L. now rewrite L.
Qed.

(** A key that carries the prefix is not below it. *)
Lemma HasPrefix_not_below (k prefix : bytes) :
  bytes_HasPrefix k prefix = true -> bytes_Compare k prefix <> Lt.
Proof.
  revert k; induction prefix as [|p prefix IH]; intros [|x k]; simpl;
    try discriminate.
  intros H. apply andb_prop in H as [E H]. apply byte_eqb_eq in E; subst.
  rewrite N.compare_refl. auto.
Qed.

(** Past the range of the prefix there is no way back into it. *)
Lemma HasPrefix_past (prefix k k' : bytes) :
  bytes_Compare k prefix <> Lt -> bytes_HasPrefix k prefix = false ->
  bytes_Compare k k' = Lt -> bytes_HasPrefix k' prefix = false.
Proof.
  revert k k'; induction prefix as [|p prefix IH]; intros [|x k] [|y k']; simpl;
    try discriminate; try congruence; auto.
  destruct (N.compare_spec (Byte.to_N x) (Byte.to_N p)) as [E1|E1|E1];
    destruct (N.compare_spec (Byte.to_N x) (Byte.to_N y)) as [E2|E2|E2];
    intros H1 H2 H3; try discriminate; try congruence;
    try (apply andb_false_intro1, byte_eqb_neq; intros ->; lia).
  apply to_N_inj in E1, E2; subst.
  rewrite Byte.byte_dec_lb in * by reflexivity; simpl in *. eauto.
Qed.

Lemma HasPrefix_length (k prefix : bytes) :
  bytes_HasPrefix k prefix = true -> List.length prefix <= List.length k.
Proof.
  revert k; induction prefix as [|p prefix IH]; intros [|x k]; simpl;
    try discriminate; try lia.
  intros H. apply andb_prop in H as [_ H]. apply IH in H. lia.
Qed.

(** A key that carries the prefix and is no longer than it is the prefix. *)
Lemma HasPrefix_short (k prefix : bytes) :
  bytes_HasPrefix k prefix = true -> List.length k <= List.length prefix ->
  k = prefix.
Proof.
  revert k; induction prefix as [|p prefix IH]; intros [|x k]; simpl;
    try discriminate; try lia; auto.
  intros H L. apply andb_prop in H as [E H]. apply byte_eqb_eq in E; subst.
  f_equal. apply IH; auto. lia.
Qed.

Lemma HasPrefix_refl (k : bytes) : bytes_HasPrefix k k = true.
Proof.
  induction k as [|x k IH]; simpl; auto.
  rewrite IH, Byte.byte_dec_lb; auto.
Qed.

Lemma HasPrefix_app (prefix suffix : bytes) :
  bytes_HasPrefix (prefix ++ suffix) prefix = true.
Proof.
  induction prefix as [|x k IH]; simpl; [now destruct suffix|].
  rewrite IH, Byte.byte_dec_lb; auto.
Qed.

(** ** Key prefixing *)

Lemma addPrefixToKey_app (prefix key : bytes) :
  addPrefixToKey prefix key = prefix ++ x00 :: key.
Proof. reflexivity. Qed.

Lemma removePrefixFromKey_long (prefix full_key : bytes) :
  List.length prefix + 1 <= List.length full_key ->
  removePrefixFromKey prefix full_key
  = Returns (skipn (List.length prefix + 1) full_key).
Proof.
  intros L. unfold removePrefixFromKey.
  now rewrite (proj2 (Nat.leb_le _ _) L).
Qed.

Lemma removePrefixFromKey_short (prefix full_key : bytes) :
  List.length full_key <= List.length prefix ->
  removePrefixFromKey prefix full_key
  = Panics "runtime error: slice bounds out of range".
Proof.
  intros L. unfold removePrefixFromKey.
  destruct (Nat.leb_spec (List.length prefix + 1) (List.length full_key));
    [lia | reflexivity].
Qed.

Lemma skipn_prefix_sep (prefix key : bytes) :
  skipn (List.length prefix + 1) (prefix ++ x00 :: key) = key.
Proof. induction prefix as [|p prefix IH]; simpl; auto. Qed.

Lemma removePrefixFromKey_addPrefixToKey (prefix key : bytes) :
  removePrefixFromKey prefix (addPrefixToKey prefix key) = Returns key.
Proof.
  rewrite addPrefixToKey_app, removePrefixFromKey_long.
  - now rewrite skipn_prefix_sep.
  - rewrite length_app; simpl; lia.
Qed.

(** C7. [addPrefixToKey prefix key] is [prefix], the byte 0x00, then [key];
    [removePrefixFromKey prefix full_key] is [full_key] without its first
    [len(prefix)+1] bytes (when it has that many); stripping the prefix of a
    prefixed key gives the key back, for all prefixes and keys. *)
Theorem prefix_key_roundtrip (prefix key full_key : bytes) :
  addPrefixToKey prefix key = prefix ++ [x00] ++ key
  /\ (List.length prefix + 1 <= List.length full_key ->
      removePrefixFromKey prefix full_key
      = Returns (skipn (List.length prefix + 1) full_key))
  /\ removePrefixFromKey prefix (addPrefixToKey prefix key) = Returns key.
Proof.
  split; [reflexivity|]. split.
  - apply removePrefixFromKey_long.
  - apply removePrefixFromKey_addPrefixToKey.
Qed.

Lemma prefix_key_roundtrip_witness :
  List.length (string_to_bytes "data_b") + 1
  <= List.length (string_to_bytes "data_bX1234")
  /\ addPrefixToKey (string_to_bytes "data_b") (string_to_bytes "1234")
     = string_to_bytes "data_b" ++ [x00] ++ string_to_bytes "1234"
  /\ removePrefixFromKey (string_to_bytes "data_b") (string_to_bytes "data_bX1234")
     = Returns (string_to_bytes "1234")
  /\ removePrefixFromKey (string_to_bytes "data_b")
       (addPrefixToKey (string_to_bytes "data_b") (string_to_bytes "1234"))
     = Returns (string_to_bytes "1234").
Proof.
  destruct (prefix_key_roundtrip (string_to_bytes "data_b") (string_to_bytes "1234")
              (string_to_bytes "data_bX1234")) as (Ha & Hr & Hrt).
  split; [vm_compute; lia|].
  split; [exact Ha|]. split; [|exact Hrt].
  rewrite Hr by (vm_compute; lia). reflexivity.
Defined.

(** ** The keyspace *)

Lemma lookup_insert (key val : bytes) (l : list badger.Item) :
  badger.lookup key (badger.insert key val l) = Some (key, val).
Proof.
  induction l as [|[k v] l IH]; simpl.
  - now rewrite bytes_Equal_refl.
  - unfold badger.Item_Key; simpl.
    destruct (bytes_Compare key k) eqn:E; simpl;
      unfold badger.Item_Key; simpl; try now rewrite bytes_Equal_refl.
    replace (bytes_Equal k key) with false; auto.
    symmetry; apply bytes_Equal_false. intros ->.
    now rewrite bytes_Compare_refl in E.
Qed.

Lemma lookup_insert_other (key key' val : bytes) (l : list badger.Item) :
  key <> key' ->
  badger.lookup key' (badger.insert key val l) = badger.lookup key' l.
Proof.
  intros N. assert (F : bytes_Equal key key' = false) by now apply bytes_Equal_false.
  induction l as [|[k v] l IH]; simpl; unfold badger.Item_Key; simpl.
  - now rewrite F.
  - destruct (bytes_Compare key k) eqn:E; simpl; unfold badger.Item_Key; simpl.
    + apply bytes_Compare_eq in E; subst. now rewrite F.
    + now rewrite F.
    + now rewrite IH.
Qed.

Lemma lookup_remove (key : bytes) (l : list badger.Item) :
  badger.lookup key (badger.remove key l) = None.
Proof.
  induction l as [|[k v] l IH]; simpl; auto.
  unfold badger.Item_Key; simpl.
  destruct (bytes_Equal k key) eqn:E; simpl; auto.
  unfold badger.Item_Key; simpl. now rewrite E.
Qed.

Lemma lookup_In (key : bytes) (l : list badger.Item) (item : badger.Item) :
  badger.lookup key l = Some item -> In item l /\ badger.Item_Key item = key.
Proof.
  induction l as [|it l IH]; simpl; [discriminate|].
  destruct (bytes_Equal (badger.Item_Key it) key) eqn:E.
  - intros [= <-]. apply bytes_Equal_true in E. auto.
  - intros Hl. destruct (IH Hl). auto.
Qed.

Lemma lookup_None (key : bytes) (l : list badger.Item) :
  badger.lookup key l = None <->
  Forall (fun item => badger.Item_Key item <> key) l.
Proof.
  induction l as [|it l IH]; simpl.
  - split; auto.
  - destruct (bytes_Equal (badger.Item_Key it) key) eqn:E.
    + apply bytes_Equal_true in E. split; [discriminate|].
      intros F. inversion F; subst. congruence.
    + apply bytes_Equal_false in E. rewrite IH. split.
      * now constructor.
      * intros F. now inversion F.
Qed.

Lemma ordered_nil : badger.ordered [].
Proof. constructor. Qed.

Lemma before_trans (a b c : badger.Item) :
  badger.before a b -> badger.before b c -> badger.before a c.
Proof. unfold badger.before. apply bytes_Compare_trans. Qed.

Lemma insert_Forall (P : badger.Item -> Prop) key val l :
  P (key, val) -> Forall P l -> Forall P (badger.insert key val l).
Proof.
  intros Hk F. induction F as [|it l Hit F IH]; simpl.
  - auto.
  - destruct (bytes_Compare key (badger.Item_Key it)); auto.
Qed.

Lemma insert_ordered (key val : bytes) (l : list badger.Item) :
  badger.ordered l -> badger.ordered (badger.insert key val l).
Proof.
  unfold badger.ordered.
  induction 1 as [|it l Hl IH Hit]; simpl.
  - repeat constructor.
  - destruct (bytes_Compare key (badger.Item_Key it)) eqn:E.
    + apply bytes_Compare_eq in E. constructor; auto.
      revert Hit. apply Forall_impl. unfold badger.before; simpl. now rewrite E.
    + constructor; [now constructor|]. constructor; [exact E|].
      revert Hit. apply Forall_impl. intros c. now apply before_trans.
    + constructor; auto. apply insert_Forall; auto.
      unfold badger.before; simpl.
      rewrite bytes_Compare_antisym, E. reflexivity.
Qed.

Lemma filter_ordered (f : badger.Item -> bool) (l : list badger.Item) :
  badger.ordered l -> badger.ordered (filter f l).
Proof.
  unfold badger.ordered.
  induction 1 as [|it l Hl IH Hit]; simpl; [constructor|].
  destruct (f it); auto. constructor; auto.
  apply Forall_forall. intros x Hx. apply filter_In in Hx as [Hx _].
  revert x Hx. now apply Forall_forall.
Qed.

Lemma remove_ordered (key : bytes) (l : list badger.Item) :
  badger.ordered l -> badger.ordered (badger.remove key l).
Proof. apply filter_ordered. Qed.

(** Writes keep the transaction's pairs in key order. *)
Lemma Txn_Set_ordered key val txn :
  badger.ordered (badger.items txn) ->
  badger.ordered (badger.items (snd (badger.Txn_Set key val txn))).
Proof.
  unfold badger.Txn_Set. destruct (badger.update txn); simpl; auto.
  destruct (badger.verdict txn key val); simpl; auto. apply insert_ordered.
Qed.

Lemma Txn_Delete_ordered key txn :
  badger.ordered (badger.items txn) ->
  badger.ordered (badger.items (snd (badger.Txn_Delete key txn))).
Proof.
  unfold badger.Txn_Delete. destruct (badger.update txn); simpl; auto.
  destruct (badger.verdict txn key []); simpl; auto. apply remove_ordered.
Qed.

Example sample_string_bytes :
  gob_Encode "1234"%string
  = inl [x07; x0c; x00; x04; x31; x32; x33; x34].
Proof. reflexivity. Qed.

Example sample_int64_bytes :
  gob_Encode 99999%Z = inl [x06; x04; x00; xfd; x03; x0d; x3e].
Proof. reflexivity. Qed.

Example sample_roundtrips :
  gob_roundtrips "1234"%string /\ gob_roundtrips 99999%Z /\ gob_roundtrips (-7)%Z.
Proof.
  repeat split; intros b E; vm_compute in E; injection E as <-; reflexivity.
Qed.

(** ** Get, Set and Delete *)

Ltac run_txn :=
  unfold bind, ret, lift, panic, txn_Get, txn_Set, txn_Delete, txn_NewIterator,
    badger.Txn_Get, badger.Txn_Set, badger.Txn_Delete, badger.Item_Value; simpl.

Lemma encodeGob_ok {T} `{Gob T} (v : T) (b : bytes) :
  gob_Encode v = inl b -> encodeGob v = (b, None).
Proof. unfold encodeGob. now intros ->. Qed.

Lemma decodeGob_ok {T} `{Gob T} (v : T) (b : bytes) :
  gob_Decode b = inl v -> decodeGob b = (v, None).
Proof. unfold decodeGob. now intros ->. Qed.

Section SingleFacts.
Context {ValueT : Type} `{Gob ValueT}.
Variable nss : NamespaceSingle ValueT.

Lemma NamespaceSingle_Get_absent (txn : badger.Txn) :
  badger.lookup (string_to_bytes (nss_name nss)) (badger.items txn) = None ->
  NamespaceSingle_Get nss txn = Returns ((zero, None), txn).
Proof.
  intros E. unfold NamespaceSingle_Get. run_txn.  now rewrite E.
Qed.

Lemma NamespaceSingle_Get_present (txn : badger.Txn) (item : badger.Item) (v : ValueT) :
  badger.lookup (string_to_bytes (nss_name nss)) (badger.items txn) = Some item ->
  gob_Decode (snd item) = inl v ->
  NamespaceSingle_Get nss txn = Returns ((v, None), txn).
Proof.
  intros E D. unfold NamespaceSingle_Get. run_txn.  rewrite E.
  now rewrite (decodeGob_ok _ D).
Qed.

(** [Set] returns nil exactly when the value encodes and the engine takes
    the write; the pair is then stored under the bare name. *)
Lemma NamespaceSingle_Set_ok (txn : badger.Txn) (v : ValueT) (b : bytes) :
  badger.update txn = true -> gob_Encode v = inl b ->
  badger.verdict txn (string_to_bytes (nss_name nss)) b = None ->
  NamespaceSingle_Set nss v txn
  = Returns (None,
             badger.with_items txn
               (badger.insert (string_to_bytes (nss_name nss)) b (badger.items txn))).
Proof.
  intros U E A. unfold NamespaceSingle_Set. rewrite (encodeGob_ok _ E).
  run_txn. now rewrite U, A.
Qed.

Lemma NamespaceSingle_Set_nil (txn txn1 : badger.Txn) (v : ValueT) :
  NamespaceSingle_Set nss v txn = Returns (None, txn1) ->
  badger.update txn = true
  /\ exists b,
      gob_Encode v = inl b
      /\ badger.verdict txn (string_to_bytes (nss_name nss)) b = None
      /\ txn1 = badger.with_items txn
                  (badger.insert (string_to_bytes (nss_name nss)) b (badger.items txn)).
Proof.
  unfold NamespaceSingle_Set, encodeGob.
  destruct (gob_Encode v) as [b|err]; run_txn; [|discriminate].
  destruct (badger.update txn); [|discriminate].
  destruct (badger.verdict txn _ b) eqn:A; simpl; [discriminate|].
  intros [= <-]. eauto.
Qed.

Lemma NamespaceSingle_Delete_ok (txn : badger.Txn) :
  badger.update txn = true ->
  badger.verdict txn (string_to_bytes (nss_name nss)) [] = None ->
  NamespaceSingle_Delete nss txn
  = Returns (None,
             badger.with_items txn
               (badger.remove (string_to_bytes (nss_name nss)) (badger.items txn))).
Proof.
  intros U A. unfold NamespaceSingle_Delete. run_txn. now rewrite U, A.
Qed.

(** C4. In a single-value namespace: [Get] with nothing stored returns the
    zero value and no error; after a [Set v] that returned nil, in the same
    transaction, [Get] returns [v] (a value the codec carries faithfully);
    [Set] does return nil in a read-write transaction when the value
    encodes and the engine takes the write; [Delete] returns no error where
    the engine takes the deletion, whether or not a value is stored, and
    [Get] after it returns the zero value and no error. *)
Theorem single_get_set_delete (txn : badger.Txn) (v : ValueT) :
  (badger.lookup (string_to_bytes (nss_name nss)) (badger.items txn) = None ->
   NamespaceSingle_Get nss txn = Returns ((zero, None), txn))
  /\ (forall txn1,
        NamespaceSingle_Set nss v txn = Returns (None, txn1) ->
        gob_roundtrips v ->
        badger.update txn1 = true
        /\ badger.verdict txn1 = badger.verdict txn
        /\ NamespaceSingle_Get nss txn1 = Returns ((v, None), txn1))
  /\ (forall b,
        badger.update txn = true -> gob_Encode v = inl b ->
        badger.verdict txn (string_to_bytes (nss_name nss)) b = None ->
        exists txn1, NamespaceSingle_Set nss v txn = Returns (None, txn1))
  /\ (badger.update txn = true ->
      badger.verdict txn (string_to_bytes (nss_name nss)) [] = None ->
      exists txn2,
        NamespaceSingle_Delete nss txn = Returns (None, txn2)
        /\ NamespaceSingle_Get nss txn2 = Returns ((zero, None), txn2)).
Proof.
  split; [apply NamespaceSingle_Get_absent|]. split; [|split].
  - intros txn1 S R.
    destruct (NamespaceSingle_Set_nil _ _ S) as (U & b & E & _ & ->).
    split; [exact U|]. split; [reflexivity|].
    eapply NamespaceSingle_Get_present; simpl; [apply lookup_insert|].
    now apply R.
  - intros b U E A. eexists. now apply NamespaceSingle_Set_ok with (b := b).
  - intros U A. eexists. split; [now apply NamespaceSingle_Delete_ok|].
    apply NamespaceSingle_Get_absent; simpl. apply lookup_remove.
Qed.
End SingleFacts.

Section MultipleFacts.
Context {KeyT ValueT : Type} `{Gob KeyT} `{Gob ValueT}.
Variable nsm : NamespaceMultiple KeyT ValueT.

Lemma NamespaceMultiple_Get_absent (txn : badger.Txn) (k : KeyT) (kb : bytes) :
  gob_Encode k = inl kb ->
  badger.lookup (addPrefixToKey (string_to_bytes (nsm_name nsm)) kb) (badger.items txn) = None ->
  NamespaceMultiple_Get nsm k txn = Returns ((zero, false, None), txn).
Proof.
  intros K E. unfold NamespaceMultiple_Get. rewrite (encodeGob_ok _ K).
  run_txn.  now rewrite E.
Qed.

Lemma NamespaceMultiple_Get_present (txn : badger.Txn) (k : KeyT) (kb : bytes)
    (item : badger.Item) (v : ValueT) :
  gob_Encode k = inl kb ->
  badger.lookup (addPrefixToKey (string_to_bytes (nsm_name nsm)) kb) (badger.items txn) = Some item ->
  gob_Decode (snd item) = inl v ->
  NamespaceMultiple_Get nsm k txn = Returns ((v, true, None), txn).
Proof.
  intros K E D. unfold NamespaceMultiple_Get. rewrite (encodeGob_ok _ K).
  run_txn.  rewrite E.
  now rewrite (decodeGob_ok _ D).
Qed.

Lemma NamespaceMultiple_Set_ok (txn : badger.Txn) (k : KeyT) (v : ValueT)
    (kb vb : bytes) :
  badger.update txn = true -> gob_Encode k = inl kb -> gob_Encode v = inl vb ->
  badger.verdict txn (addPrefixToKey (string_to_bytes (nsm_name nsm)) kb) vb = None ->
  NamespaceMultiple_Set nsm k v txn
  = Returns (None,
             badger.with_items txn
               (badger.insert (addPrefixToKey (string_to_bytes (nsm_name nsm)) kb) vb
                  (badger.items txn))).
Proof.
  intros U K E A. unfold NamespaceMultiple_Set.
  rewrite (encodeGob_ok _ K), (encodeGob_ok _ E). run_txn. now rewrite U, A.
Qed.

Lemma NamespaceMultiple_Set_nil (txn txn1 : badger.Txn) (k : KeyT) (v : ValueT) :
  NamespaceMultiple_Set nsm k v txn = Returns (None, txn1) ->
  badger.update txn = true
  /\ exists kb vb,
      gob_Encode k = inl kb /\ gob_Encode v = inl vb
      /\ badger.verdict txn (addPrefixToKey (string_to_bytes (nsm_name nsm)) kb) vb
         = None
      /\ txn1 = badger.with_items txn
                  (badger.insert
                     (addPrefixToKey (string_to_bytes (nsm_name nsm)) kb) vb
                     (badger.items txn)).
Proof.
  unfold NamespaceMultiple_Set, encodeGob.
  destruct (gob_Encode k) as [kb|err]; run_txn; [|discriminate].
  destruct (gob_Encode v) as [vb|err]; run_txn; [|discriminate].
  destruct (badger.update txn); [|discriminate].
  destruct (badger.verdict txn _ vb) eqn:A; simpl; [discriminate|].
  intros [= <-]. split; [reflexivity|]. exists kb, vb. auto.
Qed.


Lemma NamespaceMultiple_Delete_nil (txn txn2 : badger.Txn) (k : KeyT) :
  NamespaceMultiple_Delete nsm k txn = Returns (None, txn2) ->
  badger.update txn = true
  /\ exists kb,
      gob_Encode k = inl kb
      /\ badger.verdict txn (addPrefixToKey (string_to_bytes (nsm_name nsm)) kb) []
         = None
      /\ txn2 = badger.with_items txn
                  (badger.remove
                     (addPrefixToKey (string_to_bytes (nsm_name nsm)) kb)
                     (badger.items txn)).
Proof.
  unfold NamespaceMultiple_Delete, encodeGob.
  destruct (gob_Encode k) as [kb|err]; run_txn; [|discriminate].
  destruct (badger.update txn); [|discriminate].
  destruct (badger.verdict txn _ []) eqn:A; simpl; [discriminate|].
  intros [= <-]. eauto.
Qed.

End MultipleFacts.

(** Every operation of a namespace keeps the pairs of the transaction in key
    order, so a transaction begun on an ordered keyspace stays ordered. *)
Ltac keep_order :=
  run_txn;
  repeat match goal with
         | |- context [badger.update ?t] => destruct (badger.update t)
         | |- context [badger.verdict ?t ?k ?v] => destruct (badger.verdict t k v)
         | |- context [errors_Is ?e ?f] => destruct (errors_Is e f)
         | |- context [encodeGob ?v] => destruct (encodeGob v) as [? [?|]]
         | |- context [badger.lookup ?k ?l] => destruct (badger.lookup k l)
         | |- context [decodeGob ?b] => destruct (decodeGob b) as [? [?|]]
         end;
  simpl; intros E O; inversion E; subst; simpl;
  auto using insert_ordered, remove_ordered.

Lemma NamespaceSingle_Set_ordered {ValueT : Type} `{Gob ValueT}
    (nss : NamespaceSingle ValueT) (value : ValueT) txn r txn' :
  NamespaceSingle_Set nss value txn = Returns (r, txn') ->
  badger.ordered (badger.items txn) -> badger.ordered (badger.items txn').
Proof. unfold NamespaceSingle_Set. keep_order. Qed.

Lemma NamespaceSingle_Delete_ordered {ValueT : Type}
    (nss : NamespaceSingle ValueT) txn r txn' :
  NamespaceSingle_Delete nss txn = Returns (r, txn') ->
  badger.ordered (badger.items txn) -> badger.ordered (badger.items txn').
Proof. unfold NamespaceSingle_Delete. keep_order. Qed.

Lemma NamespaceMultiple_Set_ordered {KeyT ValueT : Type} `{Gob KeyT} `{Gob ValueT}
    (nsm : NamespaceMultiple KeyT ValueT) (key : KeyT) (value : ValueT) txn r txn' :
  NamespaceMultiple_Set nsm key value txn = Returns (r, txn') ->
  badger.ordered (badger.items txn) -> badger.ordered (badger.items txn').
Proof. unfold NamespaceMultiple_Set. keep_order. Qed.

Lemma NamespaceMultiple_Delete_ordered {KeyT ValueT : Type} `{Gob KeyT}
    (nsm : NamespaceMultiple KeyT ValueT) (key : KeyT) txn r txn' :
  NamespaceMultiple_Delete nsm key txn = Returns (r, txn') ->
  badger.ordered (badger.items txn) -> badger.ordered (badger.items txn').
Proof. unfold NamespaceMultiple_Delete. keep_order. Qed.

Lemma DropPrefix_ordered (prefix : bytes) (db : badger.DB) :
  badger.ordered (badger.store db) ->
  badger.ordered (badger.store (snd (badger.DropPrefix prefix db))).
Proof. apply filter_ordered. Qed.

Lemma single_get_set_delete_witness :
  NamespaceSingle_Get DataA empty_txn = Returns ((0%Z, None), empty_txn)
  /\ (badger.update (state_after (NamespaceSingle_Set DataA 99999%Z) empty_txn) = true
      /\ badger.verdict (state_after (NamespaceSingle_Set DataA 99999%Z) empty_txn)
         = badger.verdict empty_txn
      /\ NamespaceSingle_Get DataA
           (state_after (NamespaceSingle_Set DataA 99999%Z) empty_txn)
         = Returns ((99999%Z, None),
                    state_after (NamespaceSingle_Set DataA 99999%Z) empty_txn))
  /\ (exists txn1,
        NamespaceSingle_Set DataA 99999%Z empty_txn = Returns (None, txn1))
  /\ (exists txn2,
        NamespaceSingle_Delete DataA empty_txn = Returns (None, txn2)
        /\ NamespaceSingle_Get DataA txn2 = Returns ((0%Z, None), txn2)).
Proof.
  destruct (single_get_set_delete DataA empty_txn 99999%Z) as (G & S & A & D).
  split; [apply G; reflexivity|].
  split; [apply S; [reflexivity | apply sample_roundtrips]|].
  split; [apply (A enc_99999); reflexivity | apply D; reflexivity].
Defined.


(** ** The cursor *)

Lemma seek_incl (key : bytes) (l : list badger.Item) (item : badger.Item) :
  In item (badger.seek key l) -> In item l.
Proof.
  induction l as [|it l IH]; simpl; auto.
  destruct (bytes_Compare (badger.Item_Key it) key); simpl; tauto.
Qed.

(** Once a key at or above the prefix does not carry it, no later key does. *)
Lemma entries_past (prefix : bytes) (item : badger.Item) (l : list badger.Item) :
  bytes_Compare (badger.Item_Key item) prefix <> Lt ->
  bytes_HasPrefix (badger.Item_Key item) prefix = false ->
  Forall (badger.before item) l ->
  namespace_entries prefix l = [].
Proof.
  intros Hge Hno F. induction F as [|it l Hit F IH]; simpl; auto.
  now rewrite (HasPrefix_past _ _ _ Hge Hno Hit).
Qed.

Lemma not_below_after (prefix : bytes) (item : badger.Item) (l : list badger.Item) :
  bytes_Compare (badger.Item_Key item) prefix <> Lt ->
  Forall (badger.before item) l ->
  Forall (fun it => bytes_Compare (badger.Item_Key it) prefix <> Lt) l.
Proof.
  intros Hge. apply Forall_impl. intros it Hit Hlt. apply Hge.
  exact (bytes_Compare_trans _ _ _ Hit Hlt).
Qed.

(** The pairs a cursor shows from [Seek prefix] while [ValidForPrefix prefix]
    holds are those of [namespace_entries]: one contiguous run of the
    ordered keyspace. *)
Section Run.
Variable prefix : bytes.

Lemma valid_run_entries (l : list badger.Item) :
  badger.ordered l ->
  Forall (fun it => bytes_Compare (badger.Item_Key it) prefix <> Lt) l ->
  valid_run prefix l = namespace_entries prefix l.
Proof.
  induction 1 as [|it l Hl IH Hit]; intros F; simpl; auto.
  inversion F as [|? ? Hge F']; subst.
  destruct (bytes_HasPrefix (badger.Item_Key it) prefix) eqn:E.
  - f_equal. auto.
  - symmetry. eapply entries_past; eauto.
Qed.

Lemma seek_run_entries (l : list badger.Item) :
  badger.ordered l ->
  valid_run prefix (badger.seek prefix l) = namespace_entries prefix l.
Proof.
  induction 1 as [|it l Hl IH Hit]; simpl; auto.
  destruct (bytes_Compare (badger.Item_Key it) prefix) eqn:C.
  - apply (valid_run_entries (l := it :: l)).
    + now constructor.
    + assert (G : bytes_Compare (badger.Item_Key it) prefix <> Lt) by congruence.
      constructor; auto. eapply not_below_after; eauto.
  - destruct (bytes_HasPrefix (badger.Item_Key it) prefix) eqn:E; auto.
    now apply HasPrefix_not_below in E.
  - apply (valid_run_entries (l := it :: l)).
    + now constructor.
    + assert (G : bytes_Compare (badger.Item_Key it) prefix <> Lt) by congruence.
      constructor; auto. eapply not_below_after; eauto.
Qed.
End Run.

Lemma namespace_entries_In (prefix : bytes) (l : list badger.Item) item :
  In item (namespace_entries prefix l)
  <-> In item l /\ bytes_HasPrefix (badger.Item_Key item) prefix = true.
Proof. apply filter_In. Qed.

(** With the bare prefix not a key, every pair of the namespace has a key
    longer than the prefix. *)
Lemma entries_long (prefix : bytes) (l : list badger.Item) :
  badger.lookup prefix l = None ->
  Forall (fun it => List.length prefix + 1 <= List.length (badger.Item_Key it))
         (namespace_entries prefix l).
Proof.
  intros N. apply Forall_forall. intros it Hit.
  apply namespace_entries_In in Hit as [Hin Hp].
  apply lookup_None in N. rewrite Forall_forall in N. specialize (N it Hin).
  destruct (Nat.le_gt_cases (List.length (badger.Item_Key it)) (List.length prefix)).
  - exfalso. apply N. now apply HasPrefix_short.
  - lia.
Qed.

(** The loops of [Iter] and [FindKeyByValue] recurse on the pairs from the
    cursor's position on: the head is [it.Item()], the test on its key is
    [it.ValidForPrefix(prefix)], the tail is the position after [it.Next()]. *)
Lemma cursor_on_pending (prefix : bytes) (everything pending : list badger.Item)
    (item : badger.Item) :
  badger.ValidForPrefix prefix {| badger.all := everything; badger.rest := [] |}
  = false
  /\ badger.ValidForPrefix prefix
       {| badger.all := everything; badger.rest := item :: pending |}
     = bytes_HasPrefix (badger.Item_Key item) prefix
  /\ badger.rest
       (badger.Next {| badger.all := everything; badger.rest := item :: pending |})
     = pending.
Proof. repeat split. Qed.

(** ** Iter *)

Section IterFacts.
Context {KeyT ValueT St : Type} `{Gob KeyT} `{Gob ValueT}.
Variable nsm : NamespaceMultiple KeyT ValueT.
Variable viewer : KeyT -> ValueT -> St -> (bool * option error) * St.

(** The loop only ever looks at the run of pairs that carry the prefix. *)
Lemma Iter_loop_run (prefix : bytes) (pending : list badger.Item) (s : St) :
  Iter_loop nsm viewer prefix pending s
  = Iter_loop nsm viewer prefix (valid_run prefix pending) s.
Proof.
  revert s; induction pending as [|item pending IH]; intros s; simpl; auto.
  destruct (bytes_HasPrefix (badger.Item_Key item) prefix) eqn:E; simpl; auto.
  rewrite E.
  destruct (badger.Item_Value item _) as [[[stop [err|]] s']|msg]; auto.
  destruct stop; auto.
Qed.

(** On pairs whose keys are longer than the prefix the loop is the
    traversal of the specification. *)
Lemma Iter_loop_visit (entries : list badger.Item) (s : St) :
  Forall (fun it => bytes_HasPrefix (badger.Item_Key it)
                      (string_to_bytes (nsm_name nsm)) = true) entries ->
  Forall (fun it => List.length (string_to_bytes (nsm_name nsm)) + 1
                    <= List.length (badger.Item_Key it)) entries ->
  Iter_loop nsm viewer (string_to_bytes (nsm_name nsm)) entries s
  = Returns (visit_pairs nsm viewer entries s).
Proof.
  intros P L; revert s.
  induction entries as [|item entries IH]; intros s; simpl; auto.
  inversion P as [|? ? Hp P']; inversion L as [|? ? Hl L']; subst.
  rewrite Hp. unfold badger.Item_Value, Iter_value, decode_pair.
  rewrite (removePrefixFromKey_long _ _ Hl).
  destruct (decodeGob (DataT := KeyT) _) as [keyPtr [err|]]; [reflexivity|].
  destruct (decodeGob (DataT := ValueT) _) as [valuePtr [err|]]; [reflexivity|].
  destruct (viewer keyPtr valuePtr s) as [[[|] [err|]] s']; try reflexivity.
  now apply IH.
Qed.

Lemma Iter_entries (txn : badger.Txn) (s : St) :
  badger.ordered (badger.items txn) ->
  badger.lookup (string_to_bytes (nsm_name nsm)) (badger.items txn) = None ->
  NamespaceMultiple_Iter nsm viewer s txn
  = Returns (visit_pairs nsm viewer
               (namespace_entries (string_to_bytes (nsm_name nsm)) (badger.items txn)) s,
             txn).
Proof.
  intros O N. unfold NamespaceMultiple_Iter. run_txn.
  rewrite Iter_loop_run, seek_run_entries by assumption.
  rewrite Iter_loop_visit; auto.
  - apply Forall_forall. intros it Hit. now apply namespace_entries_In in Hit.
  - now apply entries_long.
Qed.

(** A bare prefix key at the cursor makes the loop panic. *)
Lemma Iter_loop_bare (prefix : bytes) (item : badger.Item)
    (pending : list badger.Item) (s : St) :
  badger.Item_Key item = prefix ->
  Iter_loop nsm viewer prefix (item :: pending) s
  = Panics "runtime error: slice bounds out of range".
Proof.
  intros E. simpl. rewrite E, HasPrefix_refl.
  unfold badger.Item_Value, Iter_value.
  now rewrite removePrefixFromKey_short.
Qed.
End IterFacts.

Lemma visit_record_all {KeyT ValueT : Type} `{Gob KeyT} `{Gob ValueT}
    (nsm : NamespaceMultiple KeyT ValueT) (entries : list badger.Item)
    (pairs seen : list (KeyT * ValueT)) :
  Forall2 (fun item kv => decode_pair nsm item = inl kv) entries pairs ->
  visit_pairs nsm record_all entries seen = (None, seen ++ pairs).
Proof.
  intros F; revert seen.
  induction F as [|item [k v] entries pairs D F IH]; intros seen; simpl.
  - now rewrite app_nil_r.
  - rewrite D. unfold record_all at 1. rewrite IH, <- app_assoc. reflexivity.
Qed.

Example sample_txn_items :
  badger.items sample_txn
  = [ (string_to_bytes "data_a", [x06; x04; x00; xfd; x03; x0d; x3e]);
      (string_to_bytes "data_b" ++ x00 :: [x07; x0c; x00; x04; x31; x32; x33; x34],
       [x07; x0c; x00; x04; x35; x36; x37; x38]);
      (string_to_bytes "data_b" ++ x00 :: [x07; x0c; x00; x04; x61; x62; x63; x64],
       [x07; x0c; x00; x04; x65; x66; x67; x68]) ].
Proof. reflexivity. Qed.

(** C3 (the code at the failing input).  The multi-value namespaces "d" and
    "d?\n\f" are both accepted by the constructor.  Nothing is ever stored
    in "d": [Iter] on "d" visits nothing in the empty transaction, and after
    the one write, made through the other namespace, [Get] on "d" finds no
    key.  Yet [Iter] on "d" then shows its visitor a pair: the key it hands
    over, seven bytes cut out of the foreign key, was stored by no one. *)
Theorem Iter_shows_foreign_pair :
  NewNamespaceMultiple the_txn "d" = Returns NsD
  /\ NewNamespaceMultiple the_txn name_d2 = Returns NsD2
  /\ string_to_bytes name_d2 = [x64; x3f; x0a; x0c]
  /\ NamespaceMultiple_Iter NsD record_all [] empty_txn = Returns ((None, []), empty_txn)
  /\ NamespaceMultiple_Set NsD2 "xxxx"%string "5678"%string empty_txn
     = Returns (None, foreign_txn)
  /\ badger.items foreign_txn
     = [(string_to_bytes name_d2 ++ x00 :: [x07; x0c; x00; x04; x78; x78; x78; x78],
         enc_5678)]
  /\ badger.ordered (badger.items foreign_txn)
  /\ (forall key : string,
        NamespaceMultiple_Get NsD key foreign_txn
        = Returns ((""%string, false, None), foreign_txn))
  /\ NamespaceMultiple_Iter NsD record_all [] foreign_txn
     = Returns ((None, [(foreign_key, "5678"%string)]), foreign_txn)
  /\ string_to_bytes foreign_key = [x0c; x00; x04; x78; x78; x78; x78].
Proof.
  do 6 (split; [reflexivity|]).
  split; [repeat constructor|].
  split; [|split; reflexivity].
  intros key.
  pose proof (@NamespaceMultiple_Get_absent _ _ _ _ NsD foreign_txn key _ eq_refl)
    as G.
  apply G. reflexivity.
Qed.

(** ** FindKeyByValue *)

Lemma seek_lands (prefix : bytes) (item : badger.Item) (l : list badger.Item) :
  badger.ordered l -> In item l -> badger.Item_Key item = prefix ->
  exists pending,
    badger.seek prefix l = item :: pending /\ Forall (badger.before item) pending.
Proof.
  intros O; induction O as [|it l Hl IH Hit]; intros Hin E; [contradiction|].
  simpl. destruct Hin as [->|Hin].
  - rewrite E, bytes_Compare_refl. eauto.
  - rewrite Forall_forall in Hit. specialize (Hit item Hin).
    unfold badger.before in Hit. rewrite E in Hit. rewrite Hit. auto.
Qed.

(** Keys after the bare prefix that carry the prefix are longer than it. *)
Lemma after_bare_long (prefix : bytes) (item : badger.Item) (l : list badger.Item) :
  badger.Item_Key item = prefix ->
  Forall (badger.before item) l ->
  Forall (fun it => bytes_HasPrefix (badger.Item_Key it) prefix = true ->
                    List.length prefix + 1 <= List.length (badger.Item_Key it)) l.
Proof.
  intros E. apply Forall_impl. intros it B P.
  destruct (Nat.le_gt_cases (List.length (badger.Item_Key it)) (List.length prefix))
    as [Le|Gt]; [|lia].
  exfalso. apply (HasPrefix_short _ _ P) in Le.
  unfold badger.before in B. rewrite E, Le, bytes_Compare_refl in B. discriminate.
Qed.

Section FindFacts.
Context {KeyT ValueT : Type} `{Gob KeyT} `{Gob ValueT}.
Variable nsm : NamespaceMultiple KeyT ValueT.

(** With no stored value equal to the target bytes, the loop runs to its end
    and the function reaches its final [return key, true, nil]. *)
Lemma FindKeyByValue_loop_no_match (prefix targetvalueb : bytes)
    (pending : list badger.Item) (key : KeyT) :
  Forall (fun it => snd it <> targetvalueb) pending ->
  FindKeyByValue_loop nsm prefix targetvalueb pending key
  = Returns (key, true, None).
Proof.
  induction 1 as [|it pending Hit F IH]; simpl; auto.
  destruct (bytes_HasPrefix (badger.Item_Key it) prefix); auto.
  unfold badger.Item_Value, FindKeyByValue_value.
  apply bytes_Equal_false in Hit. rewrite Hit. simpl. exact IH.
Qed.

Lemma FindKeyByValue_loop_returns (prefix targetvalueb : bytes)
    (pending : list badger.Item) (key : KeyT) :
  Forall (fun it => bytes_HasPrefix (badger.Item_Key it) prefix = true ->
                    List.length prefix + 1 <= List.length (badger.Item_Key it))
         pending ->
  exists r, FindKeyByValue_loop nsm prefix targetvalueb pending key = Returns r.
Proof.
  intros F; revert key.
  induction F as [|it pending Hit F IH]; intros key; simpl; eauto.
  destruct (bytes_HasPrefix (badger.Item_Key it) prefix) eqn:P; eauto.
  unfold badger.Item_Value, FindKeyByValue_value.
  destruct (bytes_Equal (snd it) targetvalueb); simpl; auto.
  rewrite (removePrefixFromKey_long _ _ (Hit eq_refl)).
  destruct (decodeGob (DataT := KeyT) _) as [keyPtr [err|]]; eauto.
Qed.

Lemma FindKeyByValue_not_found (txn : badger.Txn) (value : ValueT) (b : bytes) :
  gob_Encode value = inl b ->
  Forall (fun it => snd it <> b) (badger.items txn) ->
  NamespaceMultiple_FindKeyByValue nsm value txn = Returns ((zero, true, None), txn).
Proof.
  intros E F. unfold NamespaceMultiple_FindKeyByValue.
  rewrite (encodeGob_ok _ E). run_txn.
  rewrite FindKeyByValue_loop_no_match; auto.
  apply Forall_forall. intros it Hit. apply seek_incl in Hit.
  revert it Hit. now apply Forall_forall.
Qed.

(** The bare prefix key is the first pair the cursor shows. *)
Lemma FindKeyByValue_bare (txn : badger.Txn) (item : badger.Item) (value : ValueT) :
  badger.ordered (badger.items txn) -> In item (badger.items txn) ->
  badger.Item_Key item = string_to_bytes (nsm_name nsm) ->
  (gob_Encode value = inl (snd item) ->
   NamespaceMultiple_FindKeyByValue nsm value txn
   = Panics "runtime error: slice bounds out of range")
  /\ (gob_Encode value <> inl (snd item) ->
      exists r, NamespaceMultiple_FindKeyByValue nsm value txn = Returns (r, txn)).
Proof.
  intros O Hin K. destruct (@seek_lands _ _ _ O Hin K) as (pending & Hs & Hafter).
  unfold NamespaceMultiple_FindKeyByValue, encodeGob. split.
  - intros ->. run_txn. rewrite Hs. simpl. rewrite K, HasPrefix_refl.
    unfold badger.Item_Value, FindKeyByValue_value.
    rewrite bytes_Equal_refl. simpl. now rewrite removePrefixFromKey_short.
  - intros N. destruct (gob_Encode value) as [b|err]; [|run_txn; eauto].
    run_txn. rewrite Hs. simpl. rewrite K, HasPrefix_refl.
    unfold badger.Item_Value, FindKeyByValue_value.
    replace (bytes_Equal (snd item) b) with false.
    + simpl.
      destruct (@FindKeyByValue_loop_returns (string_to_bytes (nsm_name nsm)) b
                  pending zero (@after_bare_long _ _ _ K Hafter)) as [r ->].
      eauto.
    + symmetry. apply bytes_Equal_false. congruence.
Qed.
End FindFacts.

(** The found path: the first pair of the namespace, in key order, whose
    stored bytes equal the encoded value gives the key, with [ok == true]. *)
Section FindFound.
Context {KeyT ValueT : Type} `{Gob KeyT} `{Gob ValueT}.
Variable nsm : NamespaceMultiple KeyT ValueT.

Lemma FindKeyByValue_loop_run (prefix targetvalueb : bytes)
    (pending : list badger.Item) (key : KeyT) :
  FindKeyByValue_loop nsm prefix targetvalueb pending key
  = FindKeyByValue_loop nsm prefix targetvalueb (valid_run prefix pending) key.
Proof.
  revert key; induction pending as [|item pending IH]; intros key; simpl; auto.
  destruct (bytes_HasPrefix (badger.Item_Key item) prefix) eqn:E; simpl; auto.
  rewrite E.
  destruct (badger.Item_Value item _) as [[[key' stop] [err|]]|msg]; auto.
  destruct stop; auto.
Qed.

Lemma FindKeyByValue_loop_first (prefix targetvalueb : bytes)
    (skipped rest : list badger.Item) (item : badger.Item) (key k : KeyT) :
  Forall (fun it => bytes_HasPrefix (badger.Item_Key it) prefix = true)
         (skipped ++ item :: rest) ->
  Forall (fun it => snd it <> targetvalueb) skipped ->
  snd item = targetvalueb ->
  List.length prefix + 1 <= List.length (badger.Item_Key item) ->
  gob_Decode (skipn (List.length prefix + 1) (badger.Item_Key item)) = inl k ->
  FindKeyByValue_loop nsm prefix targetvalueb (skipped ++ item :: rest) key
  = Returns (k, true, None).
Proof.
  intros P N V L D. induction skipped as [|it skipped IH]; simpl in *.
  - inversion P as [|? ? Hp _]; subst. rewrite Hp.
    unfold badger.Item_Value, FindKeyByValue_value.
    rewrite bytes_Equal_refl. simpl.
    rewrite (removePrefixFromKey_long _ _ L). now rewrite (decodeGob_ok _ D).
  - inversion P as [|? ? Hp P']; inversion N as [|? ? Hn N']; subst.
    rewrite Hp. unfold badger.Item_Value, FindKeyByValue_value.
    apply bytes_Equal_false in Hn. rewrite Hn. simpl. auto.
Qed.

Lemma FindKeyByValue_found (txn : badger.Txn) (value : ValueT) (b : bytes)
    (skipped rest : list badger.Item) (item : badger.Item) (k : KeyT) :
  badger.ordered (badger.items txn) ->
  gob_Encode value = inl b ->
  namespace_entries (string_to_bytes (nsm_name nsm)) (badger.items txn)
  = skipped ++ item :: rest ->
  Forall (fun it => snd it <> b) skipped ->
  snd item = b ->
  List.length (string_to_bytes (nsm_name nsm)) + 1
  <= List.length (badger.Item_Key item) ->
  gob_Decode (skipn (List.length (string_to_bytes (nsm_name nsm)) + 1)
                (badger.Item_Key item)) = inl k ->
  NamespaceMultiple_FindKeyByValue nsm value txn = Returns ((k, true, None), txn).
Proof.
  intros O E S N V L D. unfold NamespaceMultiple_FindKeyByValue.
  rewrite (encodeGob_ok _ E). run_txn.
  rewrite FindKeyByValue_loop_run, seek_run_entries, S by assumption.
  erewrite FindKeyByValue_loop_first; eauto.
  rewrite <- S. apply Forall_forall. intros it Hit.
  now apply namespace_entries_In in Hit.
Qed.
End FindFound.

(** C1 (the code at the failing input).  When the value encodes and no
    stored value has those bytes, [FindKeyByValue] returns the zero key with
    [ok == true] and no error: the not-found path reports a match. *)
Theorem FindKeyByValue_not_found_reports_ok {KeyT ValueT : Type}
    `{Gob KeyT} `{Gob ValueT} (nsm : NamespaceMultiple KeyT ValueT)
    (txn : badger.Txn) (value : ValueT) (b : bytes) :
  gob_Encode value = inl b ->
  (forall item, In item (badger.items txn) -> snd item <> b) ->
  NamespaceMultiple_FindKeyByValue nsm value txn = Returns ((zero, true, None), txn).
Proof.
  intros E F. apply FindKeyByValue_not_found with (b := b); auto.
  now apply Forall_forall.
Qed.

Lemma FindKeyByValue_not_found_reports_ok_witness :
  gob_Encode "absent"%string = inl [x09; x0c; x00; x06; x61; x62; x73; x65; x6e; x74]
  /\ (forall item, In item (badger.items sample_txn) ->
        snd item <> [x09; x0c; x00; x06; x61; x62; x73; x65; x6e; x74])
  /\ NamespaceMultiple_FindKeyByValue DataB "absent"%string sample_txn
     = Returns ((""%string, true, None), sample_txn)
  /\ NamespaceMultiple_FindKeyByValue DataB "5678"%string sample_txn
     = Returns (("1234"%string, true, None), sample_txn).
Proof.
  assert (F : forall item, In item (badger.items sample_txn) ->
                snd item <> [x09; x0c; x00; x06; x61; x62; x73; x65; x6e; x74]).
  { intros item Hin. vm_compute in Hin.
    destruct Hin as [<-|[<-|[<-|[]]]]; discriminate. }
  split; [reflexivity|]. split; [exact F|]. split.
  - exact (FindKeyByValue_not_found_reports_ok DataB sample_txn "absent"%string
             eq_refl F).
  - reflexivity.
Defined.

(** ** A bare name among the keys *)

Lemma Iter_bare {KeyT ValueT St : Type} `{Gob KeyT} `{Gob ValueT}
    (nsm : NamespaceMultiple KeyT ValueT)
    (viewer : KeyT -> ValueT -> St -> (bool * option error) * St)
    (txn : badger.Txn) (item : badger.Item) (s : St) :
  badger.ordered (badger.items txn) -> In item (badger.items txn) ->
  badger.Item_Key item = string_to_bytes (nsm_name nsm) ->
  NamespaceMultiple_Iter nsm viewer s txn
  = Panics "runtime error: slice bounds out of range".
Proof.
  intros O Hin K. destruct (@seek_lands _ _ _ O Hin K) as (pending & Hs & _).
  unfold NamespaceMultiple_Iter. run_txn. rewrite Hs.
  now rewrite Iter_loop_bare.
Qed.

(** C10 (amended).  When a key of the transaction starts with the name of a
    multi-value namespace and is no longer than it, [Iter] panics with the
    out-of-range slice of [removePrefixFromKey]; [FindKeyByValue] panics in
    the same way when the searched value encodes to the bytes stored under
    that key, and otherwise returns without panicking. *)
Theorem bare_key_panics {KeyT ValueT : Type} `{Gob KeyT} `{Gob ValueT}
    (nsm : NamespaceMultiple KeyT ValueT) (txn : badger.Txn) (item : badger.Item) :
  badger.ordered (badger.items txn) ->
  In item (badger.items txn) ->
  List.length (badger.Item_Key item) <= List.length (string_to_bytes (nsm_name nsm)) ->
  bytes_HasPrefix (badger.Item_Key item) (string_to_bytes (nsm_name nsm)) = true ->
  (forall (St : Type) (viewer : KeyT -> ValueT -> St -> (bool * option error) * St)
          (s : St),
      NamespaceMultiple_Iter nsm viewer s txn
      = Panics "runtime error: slice bounds out of range")
  /\ (forall value : ValueT,
        gob_Encode value = inl (snd item) ->
        NamespaceMultiple_FindKeyByValue nsm value txn
        = Panics "runtime error: slice bounds out of range")
  /\ (forall value : ValueT,
        gob_Encode value <> inl (snd item) ->
        exists r, NamespaceMultiple_FindKeyByValue nsm value txn = Returns (r, txn)).
Proof.
  intros O Hin L P. pose proof (HasPrefix_short _ _ P L) as K.
  split; [|split].
  - intros St viewer s. now apply Iter_bare with (item := item).
  - intros value. now apply FindKeyByValue_bare.
  - intros value. now apply FindKeyByValue_bare.
Qed.

Example clash_txn_items :
  badger.items clash_txn
  = [ bare_item; (string_to_bytes "data_b" ++ x00 :: enc_1234, enc_efgh) ].
Proof. reflexivity. Qed.

Lemma bare_key_panics_witness :
  badger.ordered (badger.items clash_txn)
  /\ In bare_item (badger.items clash_txn)
  /\ List.length (badger.Item_Key bare_item) <= List.length (string_to_bytes (nsm_name DataB))
  /\ bytes_HasPrefix (badger.Item_Key bare_item) (string_to_bytes (nsm_name DataB)) = true
  /\ NamespaceMultiple_Iter DataB record_all [] clash_txn
     = Panics "runtime error: slice bounds out of range"
  /\ gob_Encode "5678"%string = inl (snd bare_item)
  /\ NamespaceMultiple_FindKeyByValue DataB "5678"%string clash_txn
     = Panics "runtime error: slice bounds out of range"
  /\ gob_Encode "efgh"%string <> inl (snd bare_item)
  /\ (exists r, NamespaceMultiple_FindKeyByValue DataB "efgh"%string clash_txn
                = Returns (r, clash_txn)).
Proof.
  assert (O : badger.ordered (badger.items clash_txn))
    by (vm_compute; repeat constructor).
  assert (Hin : In bare_item (badger.items clash_txn)) by (left; reflexivity).
  assert (L : List.length (badger.Item_Key bare_item)
              <= List.length (string_to_bytes (nsm_name DataB)))
    by (vm_compute; lia).
  assert (P : bytes_HasPrefix (badger.Item_Key bare_item)
                (string_to_bytes (nsm_name DataB)) = true) by reflexivity.
  assert (E : gob_Encode "5678"%string = inl (snd bare_item)) by reflexivity.
  assert (N : gob_Encode "efgh"%string <> inl (snd bare_item)) by discriminate.
  destruct (bare_key_panics DataB clash_txn bare_item O Hin L P) as (I & Fp & Fr).
  do 4 (split; [assumption|]). split; [apply I|].
  split; [exact E|]. split; [exact (Fp _ E)|].
  split; [exact N | exact (Fr _ N)].
Defined.

(** C10 (counterexample).  With the bare name stored, [FindKeyByValue] for
    a value stored under another key of the namespace returns that key: it
    does not panic. *)
Lemma FindKeyByValue_bare_key_returns :
  In bare_item (badger.items clash_txn)
  /\ List.length (badger.Item_Key bare_item) <= List.length (string_to_bytes (nsm_name DataB))
  /\ bytes_HasPrefix (badger.Item_Key bare_item) (string_to_bytes (nsm_name DataB)) = true
  /\ NamespaceMultiple_FindKeyByValue DataB "efgh"%string clash_txn
     = Returns (("1234"%string, true, None), clash_txn)
  /\ (forall msg,
        NamespaceMultiple_FindKeyByValue DataB "efgh"%string clash_txn <> Panics msg).
Proof.
  split; [left; reflexivity|]. split; [vm_compute; lia|].
  split; [reflexivity|]. split; [reflexivity|].
  intros msg. vm_compute. discriminate.
Qed.

(** ** Namespace names that share a prefix *)

(** Where the name of [nsB] is not a prefix of the name of [nsA], the two
    are isolated: a key written through [nsA] does not carry the prefix of
    [nsB], so the write leaves the pairs [Iter] on [nsB] traverses as they
    were, and [DropPrefix] with the name of [nsB] keeps the written pair. *)
Lemma HasPrefix_written (nameA nameB kb : bytes) :
  ~ In x00 nameB ->
  bytes_HasPrefix (addPrefixToKey nameA kb) nameB = bytes_HasPrefix nameA nameB.
Proof.
  rewrite addPrefixToKey_app.
  revert nameB; induction nameA as [|a nameA IH]; intros [|b nameB] N; simpl; auto.
  - replace (Byte.eqb x00 b) with false; auto.
    symmetry. apply byte_eqb_neq. intros <-. apply N. now left.
  - rewrite IH; auto. intros Hin. apply N. now right.
Qed.

Lemma insert_entries_other (prefix key val : bytes) (l : list badger.Item) :
  bytes_HasPrefix key prefix = false ->
  namespace_entries prefix (badger.insert key val l) = namespace_entries prefix l.
Proof.
  intros P. induction l as [|[k v] l IH]; simpl.
  - unfold badger.Item_Key; simpl. now rewrite P.
  - unfold badger.Item_Key; simpl.
    destruct (bytes_Compare key k) eqn:C; simpl; unfold badger.Item_Key; simpl.
    + apply bytes_Compare_eq in C; subst. now rewrite P.
    + now rewrite P.
    + destruct (bytes_HasPrefix k prefix); [f_equal|]; exact IH.
Qed.

Lemma lookup_filter (f : badger.Item -> bool) (key : bytes) (item : badger.Item)
    (l : list badger.Item) :
  badger.lookup key l = Some item -> f item = true ->
  badger.lookup key (filter f l) = Some item.
Proof.
  induction l as [|it l IH]; simpl; [discriminate|].
  destruct (bytes_Equal (badger.Item_Key it) key) eqn:E.
  - intros [= ->] F. rewrite F. simpl. now rewrite E.
  - intros L F. destruct (f it); simpl; [rewrite E|]; auto.
Qed.

Lemma names_isolated_unless_prefix {KeyT ValueT KeyT' ValueT' : Type}
    `{Gob KeyT} `{Gob ValueT}
    (nsA : NamespaceMultiple KeyT ValueT) (nsB : NamespaceMultiple KeyT' ValueT')
    (txn : badger.Txn) (k : KeyT) (v : ValueT) (kb vb : bytes) :
  ~ In x00 (string_to_bytes (nsm_name nsB)) ->
  bytes_HasPrefix (string_to_bytes (nsm_name nsA)) (string_to_bytes (nsm_name nsB))
  = false ->
  badger.update txn = true -> gob_Encode k = inl kb -> gob_Encode v = inl vb ->
  badger.verdict txn (addPrefixToKey (string_to_bytes (nsm_name nsA)) kb) vb = None ->
  exists txn',
    NamespaceMultiple_Set nsA k v txn = Returns (None, txn')
    /\ namespace_entries (string_to_bytes (nsm_name nsB)) (badger.items txn')
       = namespace_entries (string_to_bytes (nsm_name nsB)) (badger.items txn)
    /\ badger.lookup (addPrefixToKey (string_to_bytes (nsm_name nsA)) kb)
         (badger.store
            (snd (badger.DropPrefix (string_to_bytes (nsm_name nsB))
                    {| badger.store := badger.items txn' |})))
       = Some (addPrefixToKey (string_to_bytes (nsm_name nsA)) kb, vb).
Proof.
  intros N P U K V A. eexists.
  split; [now apply NamespaceMultiple_Set_ok with (kb := kb) (vb := vb)|].
  assert (W : bytes_HasPrefix (addPrefixToKey (string_to_bytes (nsm_name nsA)) kb)
                (string_to_bytes (nsm_name nsB)) = false)
    by now rewrite HasPrefix_written.
  simpl. split.
  - now apply insert_entries_other.
  - apply lookup_filter; [apply lookup_insert|].
    unfold badger.Item_Key; simpl. now rewrite W.
Qed.

(** C2 (the code at the failing input).  With the names "data2" and "data":
    a pair written through [Data2] lies in the run of keys that [Iter] on
    [Data] traverses, so that [Iter] on [Data], which returned nil on the
    empty database, now strips five bytes of the foreign key and returns the
    decode error; and [DropNamespace "data"] erases the key written through
    [Data2]. *)
Theorem prefix_names_not_isolated :
  exists db1,
    Update empty_db write_data2 None = Returns (None, db1)
    /\ badger.store (badgerdb db1) = [written_data2]
    /\ In written_data2
         (valid_run (string_to_bytes "data")
            (badger.seek (string_to_bytes "data") (badger.store (badgerdb db1))))
    /\ NamespaceMultiple_Iter (Data (txnAPIBuilder db1 the_txn)) record_all []
         (badger.NewTransaction false (badgerdb empty_db))
       = Returns ((None, []), badger.NewTransaction false (badgerdb empty_db))
    /\ NamespaceMultiple_Iter (Data (txnAPIBuilder db1 the_txn)) record_all []
         (badger.NewTransaction false (badgerdb db1))
       = Returns ((Some (Errorf "Iter `data`"
                           (Errorf "decodeGob" (GobError "unexpected EOF"))), []),
                  badger.NewTransaction false (badgerdb db1))
    /\ DropNamespace db1 "data" = (None, empty_db).
Proof.
  eexists. split; [reflexivity|].
  split; [reflexivity|]. split; [left; reflexivity|].
  split; [reflexivity|]. split; reflexivity.
Qed.

(** ** Update *)

Lemma with_engine_same {TxnAPIT : Type} (db : DB TxnAPIT) :
  with_engine db (badgerdb db) = db.
Proof. now destruct db. Qed.

Lemma errors_Is_refl (err : error) : errors_Is err err = true.
Proof.
  destruct err; cbn [errors_Is];
    match goal with |- context [error_eq_dec ?a ?b] => destruct (error_eq_dec a b) end;
    congruence.
Qed.

Lemma errors_Is_Errorf (context : string) (err target : error) :
  errors_Is err target = true -> errors_Is (Errorf context err) target = true.
Proof.
  intros E. cbn [errors_Is].
  now destruct (error_eq_dec (Errorf context err) target).
Qed.

(** C8.  [Update] runs the updater on a read-write transaction of the
    committed keyspace.  If the updater returns an error, whatever it wrote,
    the database is left as it was and [Update] returns an error wrapping
    the updater's; if the updater returns nil and the commit succeeds,
    [Update] returns nil and the committed keyspace is the one the
    transaction reached, all of its writes at once; if the commit fails, the
    database is left as it was. *)
Theorem Update_all_or_nothing {TxnAPIT : Type} (db : DB TxnAPIT)
    (updater : TxnAPIT -> TxnM (option error)) (txn' : badger.Txn) :
  (forall err verdict,
      updater (txnAPIBuilder db {| badgertxn := badgertxn_ptr |})
        (badger.NewTransaction true (badgerdb db)) = Returns (Some err, txn') ->
      Update db updater verdict = Returns (Some (Errorf "Update" err), db)
      /\ errors_Is (Errorf "Update" err) err = true)
  /\ (updater (txnAPIBuilder db {| badgertxn := badgertxn_ptr |})
        (badger.NewTransaction true (badgerdb db)) = Returns (None, txn') ->
      (exists db',
          Update db updater None = Returns (None, db')
          /\ badger.store (badgerdb db') = badger.items txn'
          /\ txnAPIBuilder db' = txnAPIBuilder db)
      /\ forall err,
          Update db updater (Some err) = Returns (Some (Errorf "Update" err), db)).
Proof.
  split.
  - intros err verdict R. unfold Update, badger.Update. rewrite R.
    rewrite with_engine_same. split; [reflexivity|].
    apply errors_Is_Errorf, errors_Is_refl.
  - intros R. unfold Update, badger.Update. rewrite R. simpl.
    rewrite with_engine_same. split; [|reflexivity].
    eexists. split; [reflexivity|]. split; reflexivity.
Qed.

Lemma Update_all_or_nothing_witness :
  (Update empty_db write_then_fail None
   = Returns (Some (Errorf "Update" (AppError "rejected")), empty_db)
   /\ errors_Is (Errorf "Update" (AppError "rejected")) (AppError "rejected") = true)
  /\ (exists db',
         Update empty_db write_data2 None = Returns (None, db')
         /\ badger.store (badgerdb db') = [written_data2]
         /\ txnAPIBuilder db' = txnAPIBuilder empty_db)
  /\ (forall err,
         Update empty_db write_data2 (Some err)
         = Returns (Some (Errorf "Update" err), empty_db)).
Proof.
  split.
  - apply (proj1 (Update_all_or_nothing empty_db write_then_fail
                    (badger.with_items
                       (badger.NewTransaction true (badgerdb empty_db))
                       [written_data2]))
             (AppError "rejected") None).
    reflexivity.
  - apply (proj2 (Update_all_or_nothing empty_db write_data2
                    (badger.with_items
                       (badger.NewTransaction true (badgerdb empty_db))
                       [written_data2]))).
    reflexivity.
Defined.

(** ** Construction *)

Lemma ContainsNul_In (name : string) :
  strings_ContainsNul name = true <-> In x00 (string_to_bytes name).
Proof.
  unfold strings_ContainsNul. rewrite existsb_exists. split.
  - intros (b & Hin & E). apply byte_eqb_eq in E. now subst.
  - intros Hin. exists x00. split; [exact Hin | reflexivity].
Qed.

Lemma valid_name_checks (name : string) :
  name <> ""%string -> ~ In x00 (string_to_bytes name) ->
  String.eqb name "" = false /\ strings_ContainsNul name = false.
Proof.
  intros Ne Nn. split.
  - now apply String.eqb_neq.
  - destruct (strings_ContainsNul name) eqn:E; [|reflexivity].
    now apply ContainsNul_In in E.
Qed.

Lemma invalid_name_checks (name : string) :
  name = ""%string \/ In x00 (string_to_bytes name) ->
  String.eqb name "" = true
  \/ (String.eqb name "" = false /\ strings_ContainsNul name = true).
Proof.
  intros [->|Hin]; [now left|].
  destruct (String.eqb name "") eqn:E; [now left|].
  right. split; [reflexivity|]. now apply ContainsNul_In.
Qed.

(** C9.  [NewNamespaceSingle] and [NewNamespaceMultiple] panic exactly on
    the names that are empty or contain the byte 0x00, and return the
    accessor for every other name; [Open] with a nil [txnAPIBuilder] panics
    without a single call to the engine. *)
Theorem construction_fails_fast (KeyT ValueT TxnAPIT : Type) (txn : Txn)
    (name : string) (engine : Engine) (dbpath : string) :
  (name = ""%string \/ In x00 (string_to_bytes name) ->
   (exists msg, NewNamespaceSingle (ValueT := ValueT) txn name = Panics msg)
   /\ (exists msg,
         NewNamespaceMultiple (KeyT := KeyT) (ValueT := ValueT) txn name = Panics msg))
  /\ (name <> ""%string -> ~ In x00 (string_to_bytes name) ->
      NewNamespaceSingle (ValueT := ValueT) txn name
      = Returns {| nss_txn := txn; nss_name := name |}
      /\ NewNamespaceMultiple (KeyT := KeyT) (ValueT := ValueT) txn name
         = Returns {| nsm_txn := txn; nsm_name := name |})
  /\ Open (TxnAPIT := TxnAPIT) engine dbpath None
     = ([], Panics "txnAPIBuilder must not be nil").
Proof.
  split; [|split; [|reflexivity]].
  - intros Bad. unfold NewNamespaceSingle, NewNamespaceMultiple.
    destruct (invalid_name_checks Bad) as [E|[E N]]; rewrite E; [|rewrite N]; eauto.
  - intros Ne Nn. unfold NewNamespaceSingle, NewNamespaceMultiple.
    destruct (valid_name_checks Ne Nn) as [E N]. now rewrite E, N.
Qed.

Lemma construction_fails_fast_witness :
  (""%string = ""%string \/ In x00 (string_to_bytes ""))
  /\ NewNamespaceSingle (ValueT := Z) the_txn "" = Panics "name must not be empty"
  /\ (exists msg, NewNamespaceMultiple (KeyT := string) (ValueT := Z) the_txn ""
                  = Panics msg)
  /\ (String (ascii_of_nat 0) "a" = ""%string
      \/ In x00 (string_to_bytes (String (ascii_of_nat 0) "a")))
  /\ NewNamespaceMultiple (KeyT := string) (ValueT := string) the_txn
       (String (ascii_of_nat 0) "a")
     = Panics "name must not contain \x00 symbol"
  /\ "data_a"%string <> ""%string
  /\ ~ In x00 (string_to_bytes "data_a")
  /\ NewNamespaceSingle the_txn "data_a" = Returns DataA
  /\ NewNamespaceMultiple the_txn "data_b" = Returns DataB
  /\ Open (TxnAPIT := PrefixAPI) fresh_engine "./database_storage" None
     = ([], Panics "txnAPIBuilder must not be nil")
  /\ Open fresh_engine "./database_storage" (Some prefixAPIBuilder)
     = ([call_Open "./database_storage"; call_RunValueLogGC one_tenth;
         call_Flatten 16; call_StartRepeater],
        Returns (Some empty_db, None)).
Proof.
  assert (B1 : ""%string = ""%string \/ In x00 (string_to_bytes "")) by now left.
  assert (B2 : String (ascii_of_nat 0) "a" = ""%string
               \/ In x00 (string_to_bytes (String (ascii_of_nat 0) "a")))
    by (right; left; reflexivity).
  assert (G1 : "data_a"%string <> ""%string) by discriminate.
  assert (G2 : ~ In x00 (string_to_bytes "data_a"))
    by (vm_compute; intuition discriminate).
  pose proof (@construction_fails_fast string Z PrefixAPI the_txn "data_a"
                fresh_engine "./database_storage") as (_ & Good & O).
  pose proof (@construction_fails_fast string Z PrefixAPI the_txn ""
                fresh_engine "./database_storage") as (Bad & _ & _).
  split; [exact B1|]. split; [reflexivity|].
  split; [exact (proj2 (Bad B1))|].
  split; [exact B2|]. split; [reflexivity|].
  split; [exact G1|]. split; [exact G2|].
  split; [exact (proj1 (Good G1 G2))|]. split; [reflexivity|].
  split; [exact O | reflexivity].
Defined.

(** * Further properties of the code *)

(** ** Keys of different namespaces *)

Lemma string_to_bytes_inj (a b : string) :
  string_to_bytes a = string_to_bytes b -> a = b.
Proof.
  unfold string_to_bytes. intros E.
  rewrite <- (string_of_list_byte_of_string a), <- (string_of_list_byte_of_string b).
  now rewrite E.
Qed.

Lemma prefix_sep_inj (p1 p2 k1 k2 : bytes) :
  ~ In x00 p1 -> ~ In x00 p2 ->
  p1 ++ x00 :: k1 = p2 ++ x00 :: k2 -> p1 = p2 /\ k1 = k2.
Proof.
  revert p2; induction p1 as [|a p1 IH]; intros [|b p2] N1 N2; simpl; intros E.
  - now inversion E.
  - inversion E; subst. exfalso. apply N2. now left.
  - inversion E; subst. exfalso. apply N1. now left.
  - inversion E; subst. destruct (IH p2) as [-> ->]; auto.
    + intros Hin. apply N1. now right.
    + intros Hin. apply N2. now right.
Qed.

Lemma prefixed_key_has_sep (p k : bytes) : In x00 (addPrefixToKey p k).
Proof. rewrite addPrefixToKey_app. apply in_or_app. right. now left. Qed.

(** X1.  Over names free of the byte 0x00, [addPrefixToKey] is injective in
    the name and the key together, and no such name is itself a prefixed
    key: the point keys of two namespaces never coincide. *)
Theorem prefixed_keys_never_collide (name1 name2 key1 key2 : bytes) :
  ~ In x00 name1 -> ~ In x00 name2 ->
  (addPrefixToKey name1 key1 = addPrefixToKey name2 key2 ->
   name1 = name2 /\ key1 = key2)
  /\ name1 <> addPrefixToKey name2 key2.
Proof.
  intros N1 N2. split.
  - rewrite !addPrefixToKey_app. now apply prefix_sep_inj.
  - intros E. apply N1. rewrite E. apply prefixed_key_has_sep.
Qed.

Lemma prefixed_keys_never_collide_witness :
  ~ In x00 (string_to_bytes "data")
  /\ ~ In x00 (string_to_bytes "data2")
  /\ addPrefixToKey (string_to_bytes "data") (string_to_bytes "2")
     <> addPrefixToKey (string_to_bytes "data2") []
  /\ string_to_bytes "data" <> addPrefixToKey (string_to_bytes "data2") enc_1234.
Proof.
  assert (N1 : ~ In x00 (string_to_bytes "data"))
    by (vm_compute; intuition discriminate).
  assert (N2 : ~ In x00 (string_to_bytes "data2"))
    by (vm_compute; intuition discriminate).
  split; [exact N1|]. split; [exact N2|]. split.
  - intros E.
    destruct (proj1 (@prefixed_keys_never_collide
                       (string_to_bytes "data") (string_to_bytes "data2")
                       (string_to_bytes "2") [] N1 N2) E) as [E' _].
    discriminate E'.
  - exact (proj2 (@prefixed_keys_never_collide
                    (string_to_bytes "data") (string_to_bytes "data2")
                    (string_to_bytes "2") enc_1234 N1 N2)).
Defined.

(** ** What each operation does to the transaction *)

Lemma lookup_remove_other (key key' : bytes) (l : list badger.Item) :
  key <> key' -> badger.lookup key' (badger.remove key l) = badger.lookup key' l.
Proof.
  intros N. induction l as [|[k v] l IH]; simpl; auto.
  unfold badger.Item_Key; simpl.
  destruct (bytes_Equal k key) eqn:E; simpl; unfold badger.Item_Key; simpl.
  - apply bytes_Equal_true in E; subst.
    replace (bytes_Equal key key') with false; auto.
    symmetry. now apply bytes_Equal_false.
  - now rewrite IH.
Qed.

Section Effects.
Context {KeyT ValueT : Type} `{Gob KeyT} `{Gob ValueT}.
Variable nss : NamespaceSingle ValueT.
Variable nsm : NamespaceMultiple KeyT ValueT.

Lemma NamespaceSingle_Set_effect (value : ValueT) txn r txn' :
  NamespaceSingle_Set nss value txn = Returns (r, txn') ->
  (r <> None /\ txn' = txn)
  \/ (r = None /\ badger.update txn = true /\
      exists valueb, gob_Encode value = inl valueb /\
        txn' = badger.with_items txn
                 (badger.insert (string_to_bytes (nss_name nss)) valueb
                    (badger.items txn))).
Proof.
  destruct r as [err|]; intros S.
  - left. split; [discriminate|].
    revert S. unfold NamespaceSingle_Set, encodeGob.
    destruct (gob_Encode value) as [valueb|e]; run_txn; [|congruence].
    destruct (badger.update txn); [|simpl; congruence].
    destruct (badger.verdict txn _ valueb); simpl; congruence.
  - right. apply NamespaceSingle_Set_nil in S as (U & b & E & _ & ->).
    split; [reflexivity|]. split; [exact U|]. eauto.
Qed.

(** An engine failure that is [ErrKeyNotFound] is swallowed: [Delete] then
    returns nil with nothing deleted. *)
Lemma NamespaceSingle_Delete_effect txn r txn' :
  NamespaceSingle_Delete nss txn = Returns (r, txn') ->
  txn' = txn
  \/ (r = None /\ badger.update txn = true /\
      txn' = badger.with_items txn
               (badger.remove (string_to_bytes (nss_name nss)) (badger.items txn))).
Proof.
  unfold NamespaceSingle_Delete. run_txn.
  destruct (badger.update txn) eqn:U; simpl.
  - destruct (badger.verdict txn _ []) as [e|]; simpl.
    + destruct (errors_Is e ErrKeyNotFound); intros [= <- <-]; now left.
    + intros [= <- <-]. right. repeat split.
  - intros [= <- <-]. now left.
Qed.

Lemma NamespaceMultiple_Set_effect (key : KeyT) (value : ValueT) txn r txn' :
  NamespaceMultiple_Set nsm key value txn = Returns (r, txn') ->
  (r <> None /\ txn' = txn)
  \/ (r = None /\ badger.update txn = true /\
      exists keyb valueb,
        gob_Encode key = inl keyb /\ gob_Encode value = inl valueb /\
        txn' = badger.with_items txn
                 (badger.insert
                    (addPrefixToKey (string_to_bytes (nsm_name nsm)) keyb)
                    valueb (badger.items txn))).
Proof.
  destruct r as [err|]; intros S.
  - left. split; [discriminate|].
    revert S. unfold NamespaceMultiple_Set, encodeGob.
    destruct (gob_Encode key) as [keyb|e]; run_txn; [|congruence].
    destruct (gob_Encode value) as [valueb|e]; run_txn; [|congruence].
    destruct (badger.update txn); [|simpl; congruence].
    destruct (badger.verdict txn _ valueb); simpl; congruence.
  - right.
    apply NamespaceMultiple_Set_nil in S as (U & kb & vb & K & E & _ & ->).
    split; [reflexivity|]. split; [exact U|]. exists kb, vb. auto.
Qed.

Lemma NamespaceMultiple_Delete_effect (key : KeyT) txn r txn' :
  NamespaceMultiple_Delete nsm key txn = Returns (r, txn') ->
  (r <> None /\ txn' = txn)
  \/ (r = None /\ badger.update txn = true /\
      exists keyb,
        gob_Encode key = inl keyb /\
        txn' = badger.with_items txn
                 (badger.remove
                    (addPrefixToKey (string_to_bytes (nsm_name nsm)) keyb)
                    (badger.items txn))).
Proof.
  destruct r as [err|]; intros S.
  - left. split; [discriminate|].
    revert S. unfold NamespaceMultiple_Delete, encodeGob.
    destruct (gob_Encode key) as [keyb|e]; run_txn; [|congruence].
    destruct (badger.update txn); [|simpl; congruence].
    destruct (badger.verdict txn _ []); simpl; congruence.
  - right.
    apply NamespaceMultiple_Delete_nil in S as (U & kb & K & _ & ->).
    split; [reflexivity|]. split; [exact U|]. eauto.
Qed.

(** What [Get] returns is decided by the pair stored under its key. *)
Lemma NamespaceSingle_Get_frame (txn txn' : badger.Txn) :
  badger.lookup (string_to_bytes (nss_name nss)) (badger.items txn')
  = badger.lookup (string_to_bytes (nss_name nss)) (badger.items txn) ->
  exists r, NamespaceSingle_Get nss txn = Returns (r, txn)
            /\ NamespaceSingle_Get nss txn' = Returns (r, txn').
Proof.
  intros E. unfold NamespaceSingle_Get. run_txn. rewrite E.
  destruct (badger.lookup _ (badger.items txn)) as [item|]; simpl; eauto.
  destruct (decodeGob (snd item)) as [valuePtr [err|]]; eauto.
Qed.

Lemma NamespaceMultiple_Get_frame (key : KeyT) (txn txn' : badger.Txn) :
  (forall keyb, gob_Encode key = inl keyb ->
     badger.lookup (addPrefixToKey (string_to_bytes (nsm_name nsm)) keyb)
       (badger.items txn')
     = badger.lookup (addPrefixToKey (string_to_bytes (nsm_name nsm)) keyb)
         (badger.items txn)) ->
  exists r, NamespaceMultiple_Get nsm key txn = Returns (r, txn)
            /\ NamespaceMultiple_Get nsm key txn' = Returns (r, txn').
Proof.
  intros E. unfold NamespaceMultiple_Get, encodeGob.
  destruct (gob_Encode key) as [keyb|err]; run_txn; eauto.
  rewrite (E keyb eq_refl).
  destruct (badger.lookup _ (badger.items txn)) as [item|]; simpl; eauto.
  destruct (decodeGob (snd item)) as [valuePtr [err|]]; eauto.
Qed.
End Effects.

(** The write operations always return. *)
Lemma NamespaceSingle_Set_returns {ValueT : Type} `{Gob ValueT}
    (nss : NamespaceSingle ValueT) (value : ValueT) txn :
  exists r txn', NamespaceSingle_Set nss value txn = Returns (r, txn').
Proof.
  unfold NamespaceSingle_Set.
  destruct (encodeGob value) as [valueb [err|]]; run_txn; eauto.
  destruct (badger.update txn); simpl; eauto.
  destruct (badger.verdict txn _ valueb); simpl; eauto.
Qed.

Lemma NamespaceSingle_Delete_returns {ValueT : Type}
    (nss : NamespaceSingle ValueT) txn :
  exists r txn', NamespaceSingle_Delete nss txn = Returns (r, txn').
Proof.
  unfold NamespaceSingle_Delete. run_txn.
  destruct (badger.update txn); simpl; eauto.
  destruct (badger.verdict txn _ []) as [e|]; simpl; eauto.
  destruct (errors_Is e ErrKeyNotFound); eauto.
Qed.

Lemma NamespaceMultiple_Set_returns {KeyT ValueT : Type} `{Gob KeyT} `{Gob ValueT}
    (nsm : NamespaceMultiple KeyT ValueT) (key : KeyT) (value : ValueT) txn :
  exists r txn', NamespaceMultiple_Set nsm key value txn = Returns (r, txn').
Proof.
  unfold NamespaceMultiple_Set.
  destruct (encodeGob key) as [keyb [err|]]; run_txn; eauto.
  destruct (encodeGob value) as [valueb [err|]]; run_txn; eauto.
  destruct (badger.update txn); simpl; eauto.
  destruct (badger.verdict txn _ valueb); simpl; eauto.
Qed.

Lemma NamespaceMultiple_Delete_returns {KeyT ValueT : Type} `{Gob KeyT}
    (nsm : NamespaceMultiple KeyT ValueT) (key : KeyT) txn :
  exists r txn', NamespaceMultiple_Delete nsm key txn = Returns (r, txn').
Proof.
  unfold NamespaceMultiple_Delete.
  destruct (encodeGob key) as [keyb [err|]]; run_txn; eauto.
  destruct (badger.update txn); simpl; eauto.
  destruct (badger.verdict txn _ []); simpl; eauto.
Qed.

(** A write under one key leaves the reading of every other key as it was. *)
Lemma write_keeps_other_key (key key' val : bytes) (l : list badger.Item) :
  key <> key' ->
  badger.lookup key' (badger.insert key val l) = badger.lookup key' l
  /\ badger.lookup key' (badger.remove key l) = badger.lookup key' l.
Proof.
  intros N. split; [now apply lookup_insert_other | now apply lookup_remove_other].
Qed.

(** X2.  Point operations of two multi-value namespaces with different
    names (both free of 0x00) never meet, also when one name is a prefix of
    the other: whatever [Set] or [Delete] through the first does, [Get]
    through the second returns what it returned before. *)
Theorem point_reads_isolated {KeyT ValueT KeyT' ValueT' : Type}
    `{Gob KeyT} `{Gob ValueT} `{Gob KeyT'} `{Gob ValueT'}
    (nsA : NamespaceMultiple KeyT ValueT) (nsB : NamespaceMultiple KeyT' ValueT')
    (txn : badger.Txn) (key : KeyT) (value : ValueT) (key' : KeyT') :
  nsm_name nsA <> nsm_name nsB ->
  ~ In x00 (string_to_bytes (nsm_name nsA)) ->
  ~ In x00 (string_to_bytes (nsm_name nsB)) ->
  (exists r txn' got,
      NamespaceMultiple_Set nsA key value txn = Returns (r, txn')
      /\ NamespaceMultiple_Get nsB key' txn = Returns (got, txn)
      /\ NamespaceMultiple_Get nsB key' txn' = Returns (got, txn'))
  /\ (exists r txn' got,
        NamespaceMultiple_Delete nsA key txn = Returns (r, txn')
        /\ NamespaceMultiple_Get nsB key' txn = Returns (got, txn)
        /\ NamespaceMultiple_Get nsB key' txn' = Returns (got, txn')).
Proof.
  intros Ne NA NB.
  assert (D : forall ka kb,
             addPrefixToKey (string_to_bytes (nsm_name nsA)) ka
             <> addPrefixToKey (string_to_bytes (nsm_name nsB)) kb).
  { intros ka kb E.
    rewrite !addPrefixToKey_app in E.
    apply prefix_sep_inj in E as [E _]; auto.
    now apply string_to_bytes_inj in E. }
  split.
  - destruct (NamespaceMultiple_Set_returns nsA key value txn) as (r & txn' & S).
    destruct (NamespaceMultiple_Get_frame nsB key' txn txn') as (got & G & G').
    + intros kb _.
      destruct (NamespaceMultiple_Set_effect _ _ _ _ S)
        as [[_ ->]|(_ & _ & ka & vb & _ & _ & ->)]; simpl; auto.
      now apply write_keeps_other_key.
    + eauto 6.
  - destruct (NamespaceMultiple_Delete_returns nsA key txn) as (r & txn' & S).
    destruct (NamespaceMultiple_Get_frame nsB key' txn txn') as (got & G & G').
    + intros kb _.
      destruct (NamespaceMultiple_Delete_effect _ _ _ S)
        as [[_ ->]|(_ & _ & ka & _ & ->)]; simpl; auto.
      now apply write_keeps_other_key.
    + eauto 6.
Qed.

Lemma point_reads_isolated_witness :
  nsm_name (Data2 (prefixAPIBuilder the_txn)) <> nsm_name (Data (prefixAPIBuilder the_txn))
  /\ ~ In x00 (string_to_bytes (nsm_name (Data2 (prefixAPIBuilder the_txn))))
  /\ ~ In x00 (string_to_bytes (nsm_name (Data (prefixAPIBuilder the_txn))))
  /\ (exists r txn' got,
        NamespaceMultiple_Set (Data2 (prefixAPIBuilder the_txn))
          "1234"%string "5678"%string empty_txn = Returns (r, txn')
        /\ NamespaceMultiple_Get (Data (prefixAPIBuilder the_txn)) "1234"%string
             empty_txn = Returns (got, empty_txn)
        /\ NamespaceMultiple_Get (Data (prefixAPIBuilder the_txn)) "1234"%string
             txn' = Returns (got, txn')).
Proof.
  assert (Ne : nsm_name (Data2 (prefixAPIBuilder the_txn))
               <> nsm_name (Data (prefixAPIBuilder the_txn))) by discriminate.
  assert (NA : ~ In x00 (string_to_bytes (nsm_name (Data2 (prefixAPIBuilder the_txn)))))
    by (vm_compute; intuition discriminate).
  assert (NB : ~ In x00 (string_to_bytes (nsm_name (Data (prefixAPIBuilder the_txn)))))
    by (vm_compute; intuition discriminate).
  split; [exact Ne|]. split; [exact NA|]. split; [exact NB|].
  exact (proj1 (point_reads_isolated (Data2 (prefixAPIBuilder the_txn))
                  (Data (prefixAPIBuilder the_txn)) empty_txn
                  "1234"%string "5678"%string "1234"%string Ne NA NB)).
Defined.

(** X3.  A single-value namespace and a multi-value namespace never meet in
    point operations, even under the same name: the single key is the bare
    name, which (free of 0x00) is no prefixed key.  Writes through either
    leave what [Get] through the other returns. *)
Theorem point_reads_isolated_single {KeyT ValueT ValueT' : Type}
    `{Gob KeyT} `{Gob ValueT} `{Gob ValueT'}
    (nss : NamespaceSingle ValueT') (nsm : NamespaceMultiple KeyT ValueT)
    (txn : badger.Txn) (value' : ValueT') (key key' : KeyT) (value : ValueT) :
  ~ In x00 (string_to_bytes (nss_name nss)) ->
  (exists r txn' got,
      NamespaceSingle_Set nss value' txn = Returns (r, txn')
      /\ NamespaceMultiple_Get nsm key' txn = Returns (got, txn)
      /\ NamespaceMultiple_Get nsm key' txn' = Returns (got, txn'))
  /\ (exists r txn' got,
        NamespaceSingle_Delete nss txn = Returns (r, txn')
        /\ NamespaceMultiple_Get nsm key' txn = Returns (got, txn)
        /\ NamespaceMultiple_Get nsm key' txn' = Returns (got, txn'))
  /\ (exists r txn' got,
        NamespaceMultiple_Set nsm key value txn = Returns (r, txn')
        /\ NamespaceSingle_Get nss txn = Returns (got, txn)
        /\ NamespaceSingle_Get nss txn' = Returns (got, txn'))
  /\ (exists r txn' got,
        NamespaceMultiple_Delete nsm key txn = Returns (r, txn')
        /\ NamespaceSingle_Get nss txn = Returns (got, txn)
        /\ NamespaceSingle_Get nss txn' = Returns (got, txn')).
Proof.
  intros N.
  assert (D : forall kb,
             string_to_bytes (nss_name nss)
             <> addPrefixToKey (string_to_bytes (nsm_name nsm)) kb).
  { intros kb E. apply N. rewrite E. apply prefixed_key_has_sep. }
  assert (D' : forall kb,
             addPrefixToKey (string_to_bytes (nsm_name nsm)) kb
             <> string_to_bytes (nss_name nss)).
  { intros kb E. now apply (D kb). }
  split; [|split; [|split]].
  - destruct (NamespaceSingle_Set_returns nss value' txn) as (r & txn' & S).
    destruct (NamespaceMultiple_Get_frame nsm key' txn txn') as (got & G & G').
    + intros kb _.
      destruct (NamespaceSingle_Set_effect _ _ _ S)
        as [[_ ->]|(_ & _ & vb & _ & ->)]; simpl; auto.
      now apply write_keeps_other_key.
    + eauto 6.
  - destruct (NamespaceSingle_Delete_returns nss txn) as (r & txn' & S).
    destruct (NamespaceMultiple_Get_frame nsm key' txn txn') as (got & G & G').
    + intros kb _.
      destruct (NamespaceSingle_Delete_effect _ _ S) as [->|(_ & _ & ->)];
        simpl; auto.
      now apply write_keeps_other_key.
    + eauto 6.
  - destruct (NamespaceMultiple_Set_returns nsm key value txn) as (r & txn' & S).
    destruct (NamespaceSingle_Get_frame nss txn txn') as (got & G & G').
    + destruct (NamespaceMultiple_Set_effect _ _ _ _ S)
        as [[_ ->]|(_ & _ & ka & vb & _ & _ & ->)]; simpl; auto.
      now apply write_keeps_other_key.
    + eauto 6.
  - destruct (NamespaceMultiple_Delete_returns nsm key txn) as (r & txn' & S).
    destruct (NamespaceSingle_Get_frame nss txn txn') as (got & G & G').
    + destruct (NamespaceMultiple_Delete_effect _ _ _ S)
        as [[_ ->]|(_ & _ & ka & _ & ->)]; simpl; auto.
      now apply write_keeps_other_key.
    + eauto 6.
Qed.

Lemma point_reads_isolated_single_witness :
  ~ In x00 (string_to_bytes (nss_name DataB_single))
  /\ (exists r txn' got,
        NamespaceSingle_Set DataB_single "5678"%string sample_txn = Returns (r, txn')
        /\ NamespaceMultiple_Get DataB "1234"%string sample_txn
           = Returns (got, sample_txn)
        /\ NamespaceMultiple_Get DataB "1234"%string txn' = Returns (got, txn')).
Proof.
  assert (N : ~ In x00 (string_to_bytes (nss_name DataB_single)))
    by (vm_compute; intuition discriminate).
  split; [exact N|].
  exact (proj1 (point_reads_isolated_single DataB_single DataB sample_txn
                  "5678"%string "1234"%string "1234"%string "5678"%string N)).
Defined.

(** X4.  Within one multi-value namespace, [Set] and [Delete] of a key leave
    what [Get] returns for every key that encodes to other bytes. *)
Theorem other_keys_untouched {KeyT ValueT : Type} `{Gob KeyT} `{Gob ValueT}
    (nsm : NamespaceMultiple KeyT ValueT) (txn : badger.Txn)
    (key key' : KeyT) (value : ValueT) :
  gob_Encode key <> gob_Encode key' ->
  (exists r txn' got,
      NamespaceMultiple_Set nsm key value txn = Returns (r, txn')
      /\ NamespaceMultiple_Get nsm key' txn = Returns (got, txn)
      /\ NamespaceMultiple_Get nsm key' txn' = Returns (got, txn'))
  /\ (exists r txn' got,
        NamespaceMultiple_Delete nsm key txn = Returns (r, txn')
        /\ NamespaceMultiple_Get nsm key' txn = Returns (got, txn)
        /\ NamespaceMultiple_Get nsm key' txn' = Returns (got, txn')).
Proof.
  intros Ne.
  assert (D : forall ka kb,
             gob_Encode key = inl ka -> gob_Encode key' = inl kb ->
             addPrefixToKey (string_to_bytes (nsm_name nsm)) ka
             <> addPrefixToKey (string_to_bytes (nsm_name nsm)) kb).
  { intros ka kb Ea Eb E. rewrite !addPrefixToKey_app in E.
    apply app_inv_head in E. congruence. }
  split.
  - destruct (NamespaceMultiple_Set_returns nsm key value txn) as (r & txn' & S).
    destruct (NamespaceMultiple_Get_frame nsm key' txn txn') as (got & G & G').
    + intros kb Eb.
      destruct (NamespaceMultiple_Set_effect _ _ _ _ S)
        as [[_ ->]|(_ & _ & ka & vb & Ea & _ & ->)]; simpl; auto.
      apply write_keeps_other_key; auto.
    + eauto 6.
  - destruct (NamespaceMultiple_Delete_returns nsm key txn) as (r & txn' & S).
    destruct (NamespaceMultiple_Get_frame nsm key' txn txn') as (got & G & G').
    + intros kb Eb.
      destruct (NamespaceMultiple_Delete_effect _ _ _ S)
        as [[_ ->]|(_ & _ & ka & Ea & ->)]; simpl; auto.
      apply write_keeps_other_key; auto.
    + eauto 6.
Qed.

Lemma other_keys_untouched_witness :
  gob_Encode "abcd"%string <> gob_Encode "1234"%string
  /\ (exists r txn' got,
        NamespaceMultiple_Delete DataB "abcd"%string sample_txn = Returns (r, txn')
        /\ NamespaceMultiple_Get DataB "1234"%string sample_txn
           = Returns (got, sample_txn)
        /\ NamespaceMultiple_Get DataB "1234"%string txn' = Returns (got, txn')).
Proof.
  assert (Ne : gob_Encode "abcd"%string <> gob_Encode "1234"%string)
    by (vm_compute; discriminate).
  split; [exact Ne|].
  exact (proj2 (other_keys_untouched DataB sample_txn "abcd"%string "1234"%string
                  "5678"%string Ne)).
Defined.

(** ** Writes that follow one another *)

Lemma remove_absent (key : bytes) (l : list badger.Item) :
  badger.lookup key l = None -> badger.remove key l = l.
Proof.
  induction l as [|[k v] l IH]; simpl; auto.
  unfold badger.Item_Key; simpl.
  destruct (bytes_Equal k key); [discriminate|]. simpl. intros E. now rewrite IH.
Qed.

Lemma remove_insert (key val : bytes) (l : list badger.Item) :
  badger.lookup key l = None -> badger.remove key (badger.insert key val l) = l.
Proof.
  induction l as [|[k v] l IH]; simpl; unfold badger.Item_Key; simpl.
  - now rewrite bytes_Equal_refl.
  - destruct (bytes_Equal k key) eqn:E; [discriminate|]. intros N.
    destruct (bytes_Compare key k) eqn:C; simpl; unfold badger.Item_Key; simpl.
    + apply bytes_Compare_eq in C; subst. now rewrite bytes_Equal_refl in E.
    + rewrite bytes_Equal_refl, E. simpl. f_equal.
      now apply (remove_absent key l).
    + rewrite E. simpl. now rewrite IH.
Qed.

Lemma remove_remove (key : bytes) (l : list badger.Item) :
  badger.remove key (badger.remove key l) = badger.remove key l.
Proof.
  apply remove_absent, lookup_remove.
Qed.

Lemma with_items_same (txn : badger.Txn) (l : list badger.Item) :
  l = badger.items txn -> badger.with_items txn l = txn.
Proof. intros ->. now destruct txn. Qed.

Lemma with_items_twice (txn : badger.Txn) (l l' : list badger.Item) :
  badger.with_items (badger.with_items txn l) l' = badger.with_items txn l'.
Proof. reflexivity. Qed.

(** X6.  [Delete] undoes [Set]: in a transaction where the key was absent,
    a [Set] that returned nil followed by a [Delete] that returned nil gives
    back the transaction as it was, for a key of a multi-value namespace and
    (where the engine takes the deletion) for a single-value namespace; and
    after a [Delete] that returned nil, a second one that returns nil
    changes nothing. *)
Theorem delete_undoes_set {KeyT ValueT ValueT' : Type}
    `{Gob KeyT} `{Gob ValueT} `{Gob ValueT'}
    (nsm : NamespaceMultiple KeyT ValueT) (nss : NamespaceSingle ValueT')
    (txn txn1 txn2 : badger.Txn) (key : KeyT) (value : ValueT) (value' : ValueT') :
  (forall keyb,
      gob_Encode key = inl keyb ->
      badger.lookup (addPrefixToKey (string_to_bytes (nsm_name nsm)) keyb)
        (badger.items txn) = None ->
      NamespaceMultiple_Set nsm key value txn = Returns (None, txn1) ->
      NamespaceMultiple_Delete nsm key txn1 = Returns (None, txn2) ->
      txn2 = txn)
  /\ (badger.lookup (string_to_bytes (nss_name nss)) (badger.items txn) = None ->
      badger.verdict txn (string_to_bytes (nss_name nss)) [] = None ->
      NamespaceSingle_Set nss value' txn = Returns (None, txn1) ->
      NamespaceSingle_Delete nss txn1 = Returns (None, txn))
  /\ (NamespaceMultiple_Delete nsm key txn = Returns (None, txn1) ->
      NamespaceMultiple_Delete nsm key txn1 = Returns (None, txn2) ->
      txn2 = txn1)
  /\ (NamespaceSingle_Delete nss txn = Returns (None, txn1) ->
      NamespaceSingle_Delete nss txn1 = Returns (None, txn2) ->
      txn2 = txn1).
Proof.
  split; [|split; [|split]].
  - intros keyb K N S D.
    apply NamespaceMultiple_Set_nil in S as (_ & kb & vb & K1 & _ & _ & ->).
    apply NamespaceMultiple_Delete_nil in D as (_ & kb' & K2 & _ & ->).
    assert (kb = keyb) as -> by congruence.
    assert (kb' = keyb) as -> by congruence.
    rewrite with_items_twice. apply with_items_same. simpl.
    now apply remove_insert.
  - intros N A S.
    apply NamespaceSingle_Set_nil in S as (U & b & _ & _ & ->).
    rewrite NamespaceSingle_Delete_ok; auto.
    rewrite with_items_twice. do 2 f_equal. apply with_items_same. simpl.
    now apply remove_insert.
  - intros D1 D2.
    apply NamespaceMultiple_Delete_nil in D1 as (_ & kb & K1 & _ & ->).
    apply NamespaceMultiple_Delete_nil in D2 as (_ & kb' & K2 & _ & ->).
    assert (kb' = kb) as -> by congruence.
    rewrite with_items_twice. simpl. now rewrite remove_remove.
  - intros D1 D2.
    destruct (NamespaceSingle_Delete_effect _ _ D1) as [->|(_ & _ & ->)].
    + destruct (NamespaceSingle_Delete_effect _ _ D2) as [->|(_ & _ & ->)]; auto.
      rewrite D1 in D2. now injection D2 as <-.
    + destruct (NamespaceSingle_Delete_effect _ _ D2) as [->|(_ & _ & ->)]; auto.
      rewrite with_items_twice. simpl. now rewrite remove_remove.
Qed.

Lemma delete_undoes_set_witness :
  state_after (NamespaceMultiple_Delete DataB "zzzz"%string)
    (state_after (NamespaceMultiple_Set DataB "zzzz"%string "5678"%string)
       sample_txn)
  = sample_txn
  /\ NamespaceSingle_Delete DataB_single
       (state_after (NamespaceSingle_Set DataB_single "5678"%string) sample_txn)
     = Returns (None, sample_txn).
Proof.
  split.
  - apply (proj1 (delete_undoes_set DataB DataB_single sample_txn
                    (state_after
                       (NamespaceMultiple_Set DataB "zzzz"%string "5678"%string)
                       sample_txn)
                    (state_after (NamespaceMultiple_Delete DataB "zzzz"%string)
                       (state_after
                          (NamespaceMultiple_Set DataB "zzzz"%string "5678"%string)
                          sample_txn))
                    "zzzz"%string "5678"%string "5678"%string)
             [x07; x0c; x00; x04; x7a; x7a; x7a; x7a]); reflexivity.
  - apply (proj1 (proj2 (delete_undoes_set DataB DataB_single sample_txn
                           (state_after
                              (NamespaceSingle_Set DataB_single "5678"%string)
                              sample_txn)
                           sample_txn
                           "zzzz"%string "5678"%string "5678"%string)));
      reflexivity.
Defined.

(** ** What leaves the transaction as it was *)

Lemma lift_state {A : Type} (o : outcome A) (txn txn' : badger.Txn) (a : A) :
  lift o txn = Returns (a, txn') -> txn' = txn.
Proof. unfold lift. destruct o; [now intros [= _ <-] | discriminate]. Qed.

Section Unchanged.
Context {KeyT ValueT ValueT' St : Type} `{Gob KeyT} `{Gob ValueT} `{Gob ValueT'}.
Variable nsm : NamespaceMultiple KeyT ValueT.
Variable nss : NamespaceSingle ValueT'.

Lemma NamespaceSingle_Get_state txn r txn' :
  NamespaceSingle_Get nss txn = Returns (r, txn') -> txn' = txn.
Proof.
  destruct (NamespaceSingle_Get_frame nss txn txn eq_refl) as (g & -> & _).
  now intros [= _ <-].
Qed.

Lemma NamespaceMultiple_Get_state key txn r txn' :
  NamespaceMultiple_Get nsm key txn = Returns (r, txn') -> txn' = txn.
Proof.
  destruct (NamespaceMultiple_Get_frame nsm key txn txn (fun _ _ => eq_refl))
    as (g & -> & _).
  now intros [= _ <-].
Qed.

Lemma NamespaceMultiple_Iter_state
    (viewer : KeyT -> ValueT -> St -> (bool * option error) * St) s txn r txn' :
  NamespaceMultiple_Iter nsm viewer s txn = Returns (r, txn') -> txn' = txn.
Proof. unfold NamespaceMultiple_Iter. run_txn. apply lift_state. Qed.

Lemma NamespaceMultiple_FindKeyByValue_state value txn r txn' :
  NamespaceMultiple_FindKeyByValue nsm value txn = Returns (r, txn') -> txn' = txn.
Proof.
  unfold NamespaceMultiple_FindKeyByValue.
  destruct (encodeGob value) as [b [err|]]; run_txn.
  - now intros [= _ <-].
  - apply lift_state.
Qed.

(** X7.  Only a write that succeeds changes the transaction: a [Set] or
    [Delete] that returns an error (the value or key does not encode, the
    engine rejects the write) has written nothing, and [Get], [Iter] and
    [FindKeyByValue] never write. *)
Theorem only_successful_writes_change_txn (txn txn' : badger.Txn) :
  (forall value err,
      NamespaceSingle_Set nss value txn = Returns (Some err, txn') -> txn' = txn)
  /\ (forall err,
        NamespaceSingle_Delete nss txn = Returns (Some err, txn') -> txn' = txn)
  /\ (forall key value err,
        NamespaceMultiple_Set nsm key value txn = Returns (Some err, txn') ->
        txn' = txn)
  /\ (forall key err,
        NamespaceMultiple_Delete nsm key txn = Returns (Some err, txn') ->
        txn' = txn)
  /\ (forall r, NamespaceSingle_Get nss txn = Returns (r, txn') -> txn' = txn)
  /\ (forall key r,
        NamespaceMultiple_Get nsm key txn = Returns (r, txn') -> txn' = txn)
  /\ (forall (viewer : KeyT -> ValueT -> St -> (bool * option error) * St) s r,
        NamespaceMultiple_Iter nsm viewer s txn = Returns (r, txn') -> txn' = txn)
  /\ (forall value r,
        NamespaceMultiple_FindKeyByValue nsm value txn = Returns (r, txn') ->
        txn' = txn).
Proof.
  repeat split.
  - intros value err S.
    destruct (NamespaceSingle_Set_effect _ _ _ S) as [[_ E]|[E _]];
      [exact E | discriminate].
  - intros err S.
    destruct (NamespaceSingle_Delete_effect _ _ S) as [E|[E _]];
      [exact E | discriminate].
  - intros key value err S.
    destruct (NamespaceMultiple_Set_effect _ _ _ _ S) as [[_ E]|[E _]];
      [exact E | discriminate].
  - intros key err S.
    destruct (NamespaceMultiple_Delete_effect _ _ _ S) as [[_ E]|[E _]];
      [exact E | discriminate].
  - intros r. apply NamespaceSingle_Get_state.
  - intros key r. apply NamespaceMultiple_Get_state.
  - intros viewer s r. apply NamespaceMultiple_Iter_state.
  - intros value r. apply NamespaceMultiple_FindKeyByValue_state.
Qed.
End Unchanged.

Lemma only_successful_writes_change_txn_witness :
  NamespaceSingle_Set Callback a_func sample_txn
  = Returns (Some (Errorf "Set `callback`"
                     (Errorf "encodeGob" (GobError "gob: type not supported"))),
             sample_txn)
  /\ (forall txn' err,
        NamespaceSingle_Set Callback a_func sample_txn = Returns (Some err, txn') ->
        txn' = sample_txn).
Proof.
  split; [reflexivity|].
  intros txn' err S.
  exact (proj1 (@only_successful_writes_change_txn string string Unencodable unit
                  _ _ _ DataB Callback sample_txn txn') a_func err S).
Defined.

(** ** Read-only transactions *)



(** ** Traversals after writes *)

Section ViaEntries.
Context {KeyT ValueT : Type} `{Gob KeyT} `{Gob ValueT}.
Variable nsm : NamespaceMultiple KeyT ValueT.

(** On an ordered keyspace both traversals run their loop on the pairs of
    [namespace_entries]. *)
Lemma Iter_via_entries {St : Type}
    (viewer : KeyT -> ValueT -> St -> (bool * option error) * St) (s : St) txn :
  badger.ordered (badger.items txn) ->
  NamespaceMultiple_Iter nsm viewer s txn
  = lift (Iter_loop nsm viewer (string_to_bytes (nsm_name nsm))
            (namespace_entries (string_to_bytes (nsm_name nsm)) (badger.items txn)) s)
         txn.
Proof.
  intros O. unfold NamespaceMultiple_Iter. run_txn.
  now rewrite Iter_loop_run, seek_run_entries.
Qed.

Lemma FindKeyByValue_via_entries (value : ValueT) (b : bytes) txn :
  badger.ordered (badger.items txn) -> gob_Encode value = inl b ->
  NamespaceMultiple_FindKeyByValue nsm value txn
  = lift (FindKeyByValue_loop nsm (string_to_bytes (nsm_name nsm)) b
            (namespace_entries (string_to_bytes (nsm_name nsm)) (badger.items txn))
            zero)
         txn.
Proof.
  intros O E. unfold NamespaceMultiple_FindKeyByValue.
  rewrite (encodeGob_ok _ E). run_txn.
  now rewrite FindKeyByValue_loop_run, seek_run_entries.
Qed.

Lemma FindKeyByValue_unencodable (value : ValueT) (err : error) txn :
  gob_Encode value = inr err ->
  NamespaceMultiple_FindKeyByValue nsm value txn
  = Returns ((zero, false,
              Some (Errorf (op_context "FindKeyByValue" (nsm_name nsm))
                      (Errorf "encodeGob" err))), txn).
Proof.
  intros E. unfold NamespaceMultiple_FindKeyByValue, encodeGob. now rewrite E.
Qed.
End ViaEntries.

Lemma insert_below_all (key val : bytes) (l : list badger.Item) :
  Forall (fun it => bytes_Compare key (badger.Item_Key it) = Lt) l ->
  badger.insert key val l = (key, val) :: l.
Proof. intros F. destruct F as [|it l Hit F]; simpl; [|rewrite Hit]; auto. Qed.

(** Writing a key that carries the prefix inserts its pair, in key order,
    among the pairs of the namespace. *)
Lemma insert_entries_same (prefix key val : bytes) (l : list badger.Item) :
  badger.ordered l -> bytes_HasPrefix key prefix = true ->
  namespace_entries prefix (badger.insert key val l)
  = badger.insert key val (namespace_entries prefix l).
Proof.
  intros O P. induction O as [|it l Hl IH Hit]; simpl.
  - unfold badger.Item_Key; simpl. now rewrite P.
  - destruct (bytes_Compare key (badger.Item_Key it)) eqn:C; simpl.
    + apply bytes_Compare_eq in C. rewrite <- C, P. simpl.
      now rewrite <- C, bytes_Compare_refl.
    + rewrite P. symmetry. apply insert_below_all.
      apply Forall_forall. intros x Hx.
      change (In x (namespace_entries prefix (it :: l))) in Hx.
      apply namespace_entries_In in Hx as [[<-|Hx] _]; [exact C|].
      rewrite Forall_forall in Hit. specialize (Hit x Hx).
      exact (bytes_Compare_trans _ _ _ C Hit).
    + destruct (bytes_HasPrefix (badger.Item_Key it) prefix); simpl.
      * rewrite C. f_equal. exact IH.
      * exact IH.
Qed.

Lemma remove_entries_other (prefix key : bytes) (l : list badger.Item) :
  bytes_HasPrefix key prefix = false ->
  namespace_entries prefix (badger.remove key l) = namespace_entries prefix l.
Proof.
  intros P. induction l as [|[k v] l IH]; simpl; auto.
  unfold badger.Item_Key; simpl.
  destruct (bytes_Equal k key) eqn:E; simpl; unfold badger.Item_Key; simpl.
  - apply bytes_Equal_true in E; subst. now rewrite P.
  - destruct (bytes_HasPrefix k prefix); [f_equal|]; exact IH.
Qed.

Lemma prefixed_key_not_bare (prefix key : bytes) :
  addPrefixToKey prefix key <> prefix.
Proof.
  intros E. apply (f_equal (@List.length byte)) in E.
  rewrite addPrefixToKey_app, length_app in E. simpl in E. lia.
Qed.

Lemma entries_empty_bare (prefix : bytes) (l : list badger.Item) :
  namespace_entries prefix l = [] -> badger.lookup prefix l = None.
Proof.
  intros E. destruct (badger.lookup prefix l) as [item|] eqn:L; [|reflexivity].
  apply lookup_In in L as [Hin K].
  assert (Hn : In item (namespace_entries prefix l)).
  { apply namespace_entries_In. split; [exact Hin|]. rewrite K. apply HasPrefix_refl. }
  rewrite E in Hn. contradiction.
Qed.

(** X9.  [Iter] sees the writes of its transaction.  After a [Set key value]
    that returned nil, on an ordered keyspace where the bare name is not a
    key, the pairs [Iter] traverses are the pairs it traversed before with
    the written pair (the bytes [Set] encoded) inserted in key order, in
    place of the old pair of that key; in a namespace that was empty, [Iter]
    then shows exactly (key, value), for a key and a value the codec carries
    faithfully. *)
Theorem traversals_see_set {KeyT ValueT : Type} `{Gob KeyT} `{Gob ValueT}
    (nsm : NamespaceMultiple KeyT ValueT) (txn txn' : badger.Txn)
    (key : KeyT) (value : ValueT) :
  badger.ordered (badger.items txn) ->
  badger.lookup (string_to_bytes (nsm_name nsm)) (badger.items txn) = None ->
  NamespaceMultiple_Set nsm key value txn = Returns (None, txn') ->
  exists kb vb,
    gob_Encode key = inl kb /\ gob_Encode value = inl vb
    /\ namespace_entries (string_to_bytes (nsm_name nsm)) (badger.items txn')
       = badger.insert (addPrefixToKey (string_to_bytes (nsm_name nsm)) kb) vb
           (namespace_entries (string_to_bytes (nsm_name nsm)) (badger.items txn))
    /\ (forall (St : Type)
               (viewer : KeyT -> ValueT -> St -> (bool * option error) * St) (s : St),
          NamespaceMultiple_Iter nsm viewer s txn'
          = Returns (visit_pairs nsm viewer
                       (badger.insert
                          (addPrefixToKey (string_to_bytes (nsm_name nsm)) kb) vb
                          (namespace_entries (string_to_bytes (nsm_name nsm))
                             (badger.items txn))) s,
                     txn'))
    /\ (namespace_entries (string_to_bytes (nsm_name nsm)) (badger.items txn) = [] ->
        gob_roundtrips key -> gob_roundtrips value ->
        NamespaceMultiple_Iter nsm record_all [] txn'
        = Returns ((None, [(key, value)]), txn')).
Proof.
  intros O N S.
  apply NamespaceMultiple_Set_nil in S as (_ & kb & vb & K & V & _ & ->).
  exists kb, vb. split; [exact K|]. split; [exact V|].
  assert (P : bytes_HasPrefix (addPrefixToKey (string_to_bytes (nsm_name nsm)) kb)
                (string_to_bytes (nsm_name nsm)) = true)
    by (rewrite addPrefixToKey_app; apply HasPrefix_app).
  assert (E : namespace_entries (string_to_bytes (nsm_name nsm))
                (badger.insert (addPrefixToKey (string_to_bytes (nsm_name nsm)) kb) vb
                   (badger.items txn))
              = badger.insert (addPrefixToKey (string_to_bytes (nsm_name nsm)) kb) vb
                  (namespace_entries (string_to_bytes (nsm_name nsm)) (badger.items txn)))
    by now apply insert_entries_same.
  assert (O' : badger.ordered
                 (badger.insert (addPrefixToKey (string_to_bytes (nsm_name nsm)) kb) vb
                    (badger.items txn))) by now apply insert_ordered.
  assert (N' : badger.lookup (string_to_bytes (nsm_name nsm))
                 (badger.insert (addPrefixToKey (string_to_bytes (nsm_name nsm)) kb) vb
                    (badger.items txn)) = None).
  { rewrite lookup_insert_other; [exact N | apply prefixed_key_not_bare]. }
  split; [exact E|]. split.
  - intros St viewer s. rewrite Iter_entries; simpl; auto. now rewrite E.
  - intros Empty Rk Rv.
    rewrite Iter_entries; simpl; auto. rewrite E, Empty. simpl.
    unfold decode_pair, badger.Item_Key. simpl fst. simpl snd.
    rewrite addPrefixToKey_app, skipn_prefix_sep.
    now rewrite (decodeGob_ok _ (Rk _ K)), (decodeGob_ok _ (Rv _ V)).
Qed.

Lemma traversals_see_set_witness :
  NamespaceMultiple_Iter DataB record_all []
    (state_after (NamespaceMultiple_Set DataB "1234"%string "5678"%string) empty_txn)
  = Returns ((None, [("1234", "5678")]%string),
             state_after (NamespaceMultiple_Set DataB "1234"%string "5678"%string)
               empty_txn).
Proof.
  assert (O : badger.ordered (badger.items empty_txn)) by constructor.
  assert (N : badger.lookup (string_to_bytes (nsm_name DataB))
                (badger.items empty_txn) = None) by reflexivity.
  assert (S : NamespaceMultiple_Set DataB "1234"%string "5678"%string empty_txn
              = Returns (None,
                         state_after
                           (NamespaceMultiple_Set DataB "1234"%string "5678"%string)
                           empty_txn)) by reflexivity.
  destruct (@traversals_see_set _ _ _ _ DataB _ _ _ _ O N S)
    as (kb & vb & _ & _ & _ & _ & C).
  apply C; [reflexivity| |];
    intros b E; vm_compute in E; injection E as <-; reflexivity.
Defined.

(** X10.  Where the name of [nsB] (free of 0x00) is not a prefix of the name
    of [nsA], writes through [nsA] are invisible to the traversals of
    [nsB]: after a [Set] or [Delete] through [nsA], whatever it returned,
    [Iter] and [FindKeyByValue] on [nsB] have the outcome they had
    before. *)
Theorem traversals_isolated_unless_prefix {KeyT ValueT KeyT' ValueT' : Type}
    `{Gob KeyT} `{Gob ValueT} `{Gob KeyT'} `{Gob ValueT'}
    (nsA : NamespaceMultiple KeyT ValueT) (nsB : NamespaceMultiple KeyT' ValueT')
    (txn : badger.Txn) (key : KeyT) (value : ValueT) :
  ~ In x00 (string_to_bytes (nsm_name nsB)) ->
  bytes_HasPrefix (string_to_bytes (nsm_name nsA)) (string_to_bytes (nsm_name nsB))
  = false ->
  badger.ordered (badger.items txn) ->
  forall (write : TxnM (option error)),
    write = NamespaceMultiple_Set nsA key value
    \/ write = NamespaceMultiple_Delete nsA key ->
    exists r txn',
      write txn = Returns (r, txn')
      /\ (forall (St : Type)
                 (viewer : KeyT' -> ValueT' -> St -> (bool * option error) * St)
                 (s : St),
            exists o,
              NamespaceMultiple_Iter nsB viewer s txn = lift o txn
              /\ NamespaceMultiple_Iter nsB viewer s txn' = lift o txn')
      /\ (forall sought : ValueT',
            exists o,
              NamespaceMultiple_FindKeyByValue nsB sought txn = lift o txn
              /\ NamespaceMultiple_FindKeyByValue nsB sought txn' = lift o txn').
Proof.
  intros N P O write W.
  assert (Q : forall kb,
             bytes_HasPrefix (addPrefixToKey (string_to_bytes (nsm_name nsA)) kb)
               (string_to_bytes (nsm_name nsB)) = false)
    by (intros kb; now rewrite HasPrefix_written).
  assert (R : exists r txn',
             write txn = Returns (r, txn')
             /\ badger.ordered (badger.items txn')
             /\ namespace_entries (string_to_bytes (nsm_name nsB)) (badger.items txn')
                = namespace_entries (string_to_bytes (nsm_name nsB)) (badger.items txn)).
  { destruct W as [-> | ->].
    - destruct (NamespaceMultiple_Set_returns nsA key value txn) as (r & txn' & S).
      exists r, txn'. split; [exact S|].
      split; [exact (NamespaceMultiple_Set_ordered _ _ _ _ S O)|].
      destruct (NamespaceMultiple_Set_effect _ _ _ _ S)
        as [[_ ->]|(_ & _ & ka & vb & _ & _ & ->)]; simpl; auto.
      now apply insert_entries_other.
    - destruct (NamespaceMultiple_Delete_returns nsA key txn) as (r & txn' & S).
      exists r, txn'. split; [exact S|].
      split; [exact (NamespaceMultiple_Delete_ordered _ _ _ S O)|].
      destruct (NamespaceMultiple_Delete_effect _ _ _ S)
        as [[_ ->]|(_ & _ & ka & _ & ->)]; simpl; auto.
      now apply remove_entries_other. }
  destruct R as (r & txn' & S & O' & E).
  exists r, txn'. split; [exact S|]. split.
  - intros St viewer s. eexists. split; [now apply Iter_via_entries|].
    rewrite Iter_via_entries by exact O'. now rewrite E.
  - intros sought. destruct (gob_Encode sought) as [b|err] eqn:Eb.
    + eexists. split; [now apply FindKeyByValue_via_entries with (b := b)|].
      erewrite FindKeyByValue_via_entries; [|exact O'|exact Eb]. now rewrite E.
    + exists (Returns (zero, false,
                       Some (Errorf (op_context "FindKeyByValue" (nsm_name nsB))
                               (Errorf "encodeGob" err)))).
      split; now apply FindKeyByValue_unencodable.
Qed.

Lemma traversals_isolated_unless_prefix_witness :
  ~ In x00 (string_to_bytes (nsm_name (Data2 (prefixAPIBuilder the_txn))))
  /\ bytes_HasPrefix (string_to_bytes (nsm_name (Data (prefixAPIBuilder the_txn))))
       (string_to_bytes (nsm_name (Data2 (prefixAPIBuilder the_txn)))) = false
  /\ badger.ordered (badger.items sample_txn)
  /\ (exists r txn',
        NamespaceMultiple_Set (Data (prefixAPIBuilder the_txn))
          "1234"%string "5678"%string sample_txn = Returns (r, txn')
        /\ (exists o,
              NamespaceMultiple_Iter (Data2 (prefixAPIBuilder the_txn))
                record_all [] sample_txn = lift o sample_txn
              /\ NamespaceMultiple_Iter (Data2 (prefixAPIBuilder the_txn))
                   record_all [] txn' = lift o txn')).
Proof.
  assert (N : ~ In x00 (string_to_bytes (nsm_name (Data2 (prefixAPIBuilder the_txn)))))
    by (vm_compute; intuition discriminate).
  assert (P : bytes_HasPrefix
                (string_to_bytes (nsm_name (Data (prefixAPIBuilder the_txn))))
                (string_to_bytes (nsm_name (Data2 (prefixAPIBuilder the_txn))))
              = false) by reflexivity.
  assert (O : badger.ordered (badger.items sample_txn))
    by (vm_compute; repeat constructor).
  split; [exact N|]. split; [exact P|]. split; [exact O|].
  destruct (@traversals_isolated_unless_prefix _ _ _ _ _ _ _ _
              (Data (prefixAPIBuilder the_txn)) (Data2 (prefixAPIBuilder the_txn))
              sample_txn "1234"%string "5678"%string N P O _ (or_introl eq_refl))
    as (r & txn' & S & I & _).
  exists r, txn'. split; [exact S|]. apply I.
Defined.

(** ** Dropping a namespace *)

Lemma lookup_dropped (prefix key : bytes) (l : list badger.Item) :
  bytes_HasPrefix key prefix = true ->
  badger.lookup key
    (filter (fun item => negb (bytes_HasPrefix (badger.Item_Key item) prefix)) l)
  = None.
Proof.
  intros P. apply lookup_None, Forall_forall. intros it Hit K.
  apply filter_In in Hit as [_ F]. rewrite K, P in F. discriminate.
Qed.

Lemma lookup_kept (prefix key : bytes) (l : list badger.Item) :
  bytes_HasPrefix key prefix = false ->
  badger.lookup key
    (filter (fun item => negb (bytes_HasPrefix (badger.Item_Key item) prefix)) l)
  = badger.lookup key l.
Proof.
  intros P. induction l as [|it l IH]; simpl; auto.
  destruct (bytes_Equal (badger.Item_Key it) key) eqn:E.
  - apply bytes_Equal_true in E. rewrite E, P. simpl.
    now rewrite E, bytes_Equal_refl.
  - destruct (bytes_HasPrefix (badger.Item_Key it) prefix); simpl; auto.
    now rewrite E.
Qed.

Lemma valid_run_none (prefix : bytes) (l : list badger.Item) :
  Forall (fun it => bytes_HasPrefix (badger.Item_Key it) prefix = false) l ->
  valid_run prefix l = [].
Proof. intros F. destruct F as [|it l Hit F]; simpl; [|rewrite Hit]; auto. Qed.

Lemma dropped_run (prefix : bytes) (l : list badger.Item) :
  valid_run prefix
    (badger.seek prefix
       (filter (fun item => negb (bytes_HasPrefix (badger.Item_Key item) prefix)) l))
  = [].
Proof.
  apply valid_run_none, Forall_forall. intros it Hit.
  apply seek_incl, filter_In in Hit as [_ F].
  now destruct (bytes_HasPrefix (badger.Item_Key it) prefix).
Qed.

(** X11.  [DropNamespace name] returns nil and erases every key that starts
    with the bytes of the name, and no other.  In every later transaction
    the single-value namespace of that name reads as unset, the multi-value
    namespace of that name has no key and [Iter] on it visits nothing. *)
Theorem DropNamespace_erases {TxnAPIT KeyT ValueT ValueT' : Type}
    `{Gob KeyT} `{Gob ValueT} `{Gob ValueT'}
    (db : DB TxnAPIT) (name : string) (t : Txn) (upd : bool) :
  exists db',
    DropNamespace db name = (None, db')
    /\ txnAPIBuilder db' = txnAPIBuilder db
    /\ (forall key,
          bytes_HasPrefix key (string_to_bytes name) = true ->
          badger.lookup key (badger.store (badgerdb db')) = None)
    /\ (forall key,
          bytes_HasPrefix key (string_to_bytes name) = false ->
          badger.lookup key (badger.store (badgerdb db'))
          = badger.lookup key (badger.store (badgerdb db)))
    /\ NamespaceSingle_Get (ValueT := ValueT') {| nss_txn := t; nss_name := name |}
         (badger.NewTransaction upd (badgerdb db'))
       = Returns ((zero, None), badger.NewTransaction upd (badgerdb db'))
    /\ (forall (key : KeyT) kb,
          gob_Encode key = inl kb ->
          NamespaceMultiple_Get (ValueT := ValueT) {| nsm_txn := t; nsm_name := name |}
            key (badger.NewTransaction upd (badgerdb db'))
          = Returns ((zero, false, None), badger.NewTransaction upd (badgerdb db')))
    /\ (forall (St : Type)
               (viewer : KeyT -> ValueT -> St -> (bool * option error) * St) (s : St),
          NamespaceMultiple_Iter {| nsm_txn := t; nsm_name := name |} viewer s
            (badger.NewTransaction upd (badgerdb db'))
          = Returns ((None, s), badger.NewTransaction upd (badgerdb db'))).
Proof.
  eexists. split; [reflexivity|]. split; [reflexivity|]. simpl.
  split; [intros key P; now apply lookup_dropped|].
  split; [intros key P; now apply lookup_kept|].
  split; [|split].
  - apply NamespaceSingle_Get_absent. simpl.
    apply lookup_dropped, HasPrefix_refl.
  - intros key kb K. apply NamespaceMultiple_Get_absent with (kb := kb); auto.
    simpl. apply lookup_dropped. rewrite addPrefixToKey_app. apply HasPrefix_app.
  - intros St viewer s. unfold NamespaceMultiple_Iter. run_txn.
    now rewrite Iter_loop_run, dropped_run.
Qed.

Lemma DropNamespace_erases_witness :
  exists db',
    DropNamespace sample_db "data_b" = (None, db')
    /\ bytes_HasPrefix (string_to_bytes "data_a") (string_to_bytes "data_b") = false
    /\ badger.lookup (string_to_bytes "data_a") (badger.store (badgerdb db'))
       = Some (string_to_bytes "data_a", enc_99999)
    /\ gob_Encode "1234"%string = inl enc_1234
    /\ NamespaceMultiple_Get DataB "1234"%string
         (badger.NewTransaction false (badgerdb db'))
       = Returns ((""%string, false, None),
                  badger.NewTransaction false (badgerdb db')).
Proof.
  destruct (@DropNamespace_erases PrefixAPI string string Z _ _ _
              sample_db "data_b" the_txn false)
    as (db' & D & _ & _ & Kept & _ & G & _).
  exists db'. split; [exact D|]. split; [reflexivity|].
  split; [rewrite (Kept (string_to_bytes "data_a") eq_refl); reflexivity|].
  split; [reflexivity|].
  exact (G "1234"%string enc_1234 eq_refl).
Defined.

(** ** Opening the database *)

(** X12.  [Open] with a builder always asks the engine to open the path
    first; it returns a database exactly when it returns no error, the
    database holds the given builder and the engine instance opened, and
    the background collection is started exactly when [Open] succeeds;
    every error is wrapped as [Open]. *)
Theorem Open_succeeds_or_reports {TxnAPIT : Type} (engine : Engine)
    (dbpath : string) (builder : Txn -> TxnAPIT) :
  exists calls odb oerr,
    Open engine dbpath (Some builder) = (calls, Returns (odb, oerr))
    /\ hd_error calls = Some (call_Open dbpath)
    /\ (oerr = None <-> exists db, odb = Some db)
    /\ (In call_StartRepeater calls <-> oerr = None)
    /\ (forall db, odb = Some db ->
          txnAPIBuilder db = builder
          /\ engine_Open engine dbpath = inl (badgerdb db)
          /\ engine_Flatten engine 16 (badgerdb db) = None)
    /\ (forall err, oerr = Some err -> exists e, err = Errorf "Open" e).
Proof.
  unfold Open.
  destruct (engine_Open engine dbpath) as [bdb|e] eqn:EO;
    [destruct (engine_Flatten engine 16 bdb) as [e|] eqn:EF|];
    do 3 eexists; (split; [reflexivity|]); (split; [reflexivity|]);
    (split; [split; [intros; try discriminate; eauto
                    | intros [db D]; try discriminate; reflexivity]|]);
    (split; [split; [simpl; intros; try reflexivity;
                     repeat match goal with
                            | X : _ \/ _ |- _ => destruct X
                            end; try discriminate; try contradiction
                    | intros; try discriminate; simpl; auto]|]);
    (split; [intros db D; inversion D; subst; simpl; auto
            | intros err D; inversion D; eauto]).
Qed.

Lemma Open_succeeds_or_reports_witness :
  exists calls db,
    Open fresh_engine "./database_storage" (Some prefixAPIBuilder)
    = (calls, Returns (Some db, None))
    /\ In call_StartRepeater calls
    /\ txnAPIBuilder db = prefixAPIBuilder
    /\ engine_Open fresh_engine "./database_storage" = inl (badgerdb db).
Proof.
  destruct (Open_succeeds_or_reports fresh_engine "./database_storage"
              prefixAPIBuilder)
    as (calls & odb & oerr & E & _ & R & S & B & _).
  assert (oerr = None) as -> by (vm_compute in E; congruence).
  destruct (proj1 R eq_refl) as [db ->].
  exists calls, db. split; [exact E|]. split; [exact (proj2 S eq_refl)|].
  destruct (B db eq_refl) as (Bb & Bo & _). auto.
Defined.

(** ** Errors name the operation and the namespace *)

Section Contexts.
Context {KeyT ValueT ValueT' : Type} `{Gob KeyT} `{Gob ValueT} `{Gob ValueT'}.
Variable nsm : NamespaceMultiple KeyT ValueT.
Variable nss : NamespaceSingle ValueT'.

Lemma Iter_loop_error {St : Type}
    (viewer : KeyT -> ValueT -> St -> (bool * option error) * St)
    (prefix : bytes) (pending : list badger.Item) (s s' : St) (err : error) :
  Iter_loop nsm viewer prefix pending s = Returns (Some err, s') ->
  exists e, err = Errorf (op_context "Iter" (nsm_name nsm)) e.
Proof.
  revert s; induction pending as [|item pending IH]; intros s; simpl;
    [discriminate|].
  destruct (bytes_HasPrefix (badger.Item_Key item) prefix); [|discriminate].
  destruct (badger.Item_Value item _) as [[[stop [e|]] s1]|msg];
    try discriminate.
  - intros [= <- _]. eauto.
  - destruct stop; [discriminate | apply IH].
Qed.

Lemma FindKeyByValue_loop_error (prefix targetvalueb : bytes)
    (pending : list badger.Item) (key key' : KeyT) (ok : bool) (err : error) :
  FindKeyByValue_loop nsm prefix targetvalueb pending key
  = Returns (key', ok, Some err) ->
  ok = false /\ exists e, err = Errorf (op_context "FindKeyByValue" (nsm_name nsm)) e.
Proof.
  revert key; induction pending as [|item pending IH]; intros key; simpl;
    [discriminate|].
  destruct (bytes_HasPrefix (badger.Item_Key item) prefix); [|discriminate].
  destruct (badger.Item_Value item _) as [[[k1 stop] [e|]]|msg];
    try discriminate.
  - intros [= _ <- <-]. eauto.
  - destruct stop; [discriminate | apply IH].
Qed.

(** X13.  Every error a namespace operation returns is wrapped with the
    name of the operation and the name of the namespace. *)
Theorem errors_name_operation (txn txn' : badger.Txn) (err : error) :
  (forall value,
      NamespaceSingle_Set nss value txn = Returns (Some err, txn') ->
      exists e, err = Errorf (op_context "Set" (nss_name nss)) e)
  /\ (forall got,
        NamespaceSingle_Get nss txn = Returns ((got, Some err), txn') ->
        exists e, err = Errorf (op_context "Get" (nss_name nss)) e)
  /\ (NamespaceSingle_Delete nss txn = Returns (Some err, txn') ->
      exists e, err = Errorf (op_context "Delete" (nss_name nss)) e)
  /\ (forall key value,
        NamespaceMultiple_Set nsm key value txn = Returns (Some err, txn') ->
        exists e, err = Errorf (op_context "Set" (nsm_name nsm)) e)
  /\ (forall key got ok,
        NamespaceMultiple_Get nsm key txn = Returns ((got, ok, Some err), txn') ->
        ok = false /\ exists e, err = Errorf (op_context "Get" (nsm_name nsm)) e)
  /\ (forall key,
        NamespaceMultiple_Delete nsm key txn = Returns (Some err, txn') ->
        exists e, err = Errorf (op_context "Delete" (nsm_name nsm)) e)
  /\ (forall (St : Type)
             (viewer : KeyT -> ValueT -> St -> (bool * option error) * St) s s',
        NamespaceMultiple_Iter nsm viewer s txn = Returns ((Some err, s'), txn') ->
        exists e, err = Errorf (op_context "Iter" (nsm_name nsm)) e)
  /\ (forall value key ok,
        NamespaceMultiple_FindKeyByValue nsm value txn
        = Returns ((key, ok, Some err), txn') ->
        ok = false
        /\ exists e, err = Errorf (op_context "FindKeyByValue" (nsm_name nsm)) e).
Proof.
  split; [|split; [|split; [|split; [|split; [|split; [|split]]]]]].
  - intros value. unfold NamespaceSingle_Set.
    destruct (encodeGob value) as [b [e|]]; run_txn.
    + intros [= <- _]. eauto.
    + destruct (badger.update txn); simpl;
        [destruct (badger.verdict txn _ b); simpl; [|discriminate]|];
        intros [= <- _]; eauto.
  - intros got. unfold NamespaceSingle_Get. run_txn.
    destruct (badger.lookup _ _) as [item|]; simpl; [|discriminate].
    destruct (decodeGob (snd item)) as [v [e|]]; [|discriminate].
    intros [= _ <- _]. eauto.
  - unfold NamespaceSingle_Delete. run_txn.
    destruct (badger.update txn); simpl.
    + destruct (badger.verdict txn _ []) as [e|]; simpl; [|discriminate].
      destruct (errors_Is e ErrKeyNotFound); [discriminate|].
      intros [= <- _]. eauto.
    + intros [= <- _]. eauto.
  - intros key value. unfold NamespaceMultiple_Set.
    destruct (encodeGob key) as [kb [e|]]; run_txn; [intros [= <- _]; eauto|].
    destruct (encodeGob value) as [vb [e|]]; run_txn; [intros [= <- _]; eauto|].
    destruct (badger.update txn); simpl;
      [destruct (badger.verdict txn _ vb); simpl; [|discriminate]|];
      intros [= <- _]; eauto.
  - intros key got ok. unfold NamespaceMultiple_Get.
    destruct (encodeGob key) as [kb [e|]]; run_txn;
      [intros [= _ <- <- _]; eauto|].
    destruct (badger.lookup _ _) as [item|]; simpl; [|discriminate].
    destruct (decodeGob (snd item)) as [v [e|]]; [|discriminate].
    intros [= _ <- <- _]. eauto.
  - intros key. unfold NamespaceMultiple_Delete.
    destruct (encodeGob key) as [kb [e|]]; run_txn; [intros [= <- _]; eauto|].
    destruct (badger.update txn); simpl;
      [destruct (badger.verdict txn _ []); simpl; [|discriminate]|];
      intros [= <- _]; eauto.
  - intros St viewer s s'. unfold NamespaceMultiple_Iter. run_txn.
    destruct (Iter_loop _ _ _ _ _) as [[[e|] s1]|msg] eqn:L; try discriminate.
    intros [= <- _ _]. eapply Iter_loop_error; eauto.
  - intros value key ok. unfold NamespaceMultiple_FindKeyByValue.
    destruct (encodeGob value) as [b [e|]]; run_txn;
      [intros [= _ <- <- _]; eauto|].
    destruct (FindKeyByValue_loop _ _ _ _ _) as [[[k1 ok1] [e|]]|msg] eqn:L;
      try discriminate.
    intros [= _ <- <- _]. eapply FindKeyByValue_loop_error; eauto.
Qed.
End Contexts.

Lemma errors_name_operation_witness :
  NamespaceSingle_Set Callback a_func sample_txn
  = Returns (Some (Errorf "Set `callback`"
                     (Errorf "encodeGob" (GobError "gob: type not supported"))),
             sample_txn)
  /\ (exists e,
        Errorf "Set `callback`"
          (Errorf "encodeGob" (GobError "gob: type not supported"))
        = Errorf (op_context "Set" (nss_name Callback)) e).
Proof.
  assert (S : NamespaceSingle_Set Callback a_func sample_txn
              = Returns (Some (Errorf "Set `callback`"
                                 (Errorf "encodeGob"
                                    (GobError "gob: type not supported"))),
                         sample_txn)) by reflexivity.
  split; [exact S|].
  exact (proj1 (@errors_name_operation string string Unencodable _ _ _
                  DataB Callback sample_txn sample_txn _) a_func S).
Defined.

(** ** The found path of FindKeyByValue *)

(** X14.  On an ordered keyspace, when the value encodes,
    [FindKeyByValue] returns the decoded key of the first pair of the
    namespace, in byte order of the encoded keys, whose stored bytes equal
    the encoded value, with [ok == true] and no error; pairs before it
    whose bytes differ are passed over without their keys being decoded. *)
Theorem FindKeyByValue_returns_first_match {KeyT ValueT : Type}
    `{Gob KeyT} `{Gob ValueT} (nsm : NamespaceMultiple KeyT ValueT)
    (txn : badger.Txn) (value : ValueT) (b : bytes)
    (skipped rest : list badger.Item) (item : badger.Item) (k : KeyT) :
  badger.ordered (badger.items txn) ->
  gob_Encode value = inl b ->
  namespace_entries (string_to_bytes (nsm_name nsm)) (badger.items txn)
  = skipped ++ item :: rest ->
  Forall (fun it => snd it <> b) skipped ->
  snd item = b ->
  List.length (string_to_bytes (nsm_name nsm)) + 1
  <= List.length (badger.Item_Key item) ->
  gob_Decode (skipn (List.length (string_to_bytes (nsm_name nsm)) + 1)
                (badger.Item_Key item)) = inl k ->
  NamespaceMultiple_FindKeyByValue nsm value txn = Returns ((k, true, None), txn).
Proof. intros. eapply FindKeyByValue_found; eauto. Qed.

Lemma FindKeyByValue_returns_first_match_witness :
  badger.ordered (badger.items sample_txn)
  /\ gob_Encode "efgh"%string = inl enc_efgh
  /\ namespace_entries (string_to_bytes (nsm_name DataB)) (badger.items sample_txn)
     = [(addPrefixToKey (string_to_bytes "data_b") enc_1234, enc_5678)]
       ++ (addPrefixToKey (string_to_bytes "data_b")
             [x07; x0c; x00; x04; x61; x62; x63; x64], enc_efgh) :: []
  /\ NamespaceMultiple_FindKeyByValue DataB "efgh"%string sample_txn
     = Returns (("abcd"%string, true, None), sample_txn).
Proof.
  assert (O : badger.ordered (badger.items sample_txn))
    by (vm_compute; repeat constructor).
  assert (V : gob_Encode "efgh"%string = inl enc_efgh) by reflexivity.
  assert (E : namespace_entries (string_to_bytes (nsm_name DataB))
                (badger.items sample_txn)
              = [(addPrefixToKey (string_to_bytes "data_b") enc_1234, enc_5678)]
                ++ (addPrefixToKey (string_to_bytes "data_b")
                      [x07; x0c; x00; x04; x61; x62; x63; x64], enc_efgh) :: [])
    by reflexivity.
  split; [exact O|]. split; [exact V|]. split; [exact E|].
  apply (@FindKeyByValue_returns_first_match _ _ _ _ DataB sample_txn
           "efgh"%string enc_efgh _ _ _ "abcd"%string O V E).
  - repeat constructor. discriminate.
  - reflexivity.
  - vm_compute. lia.
  - reflexivity.
Defined.

(** ** From one transaction to the next *)

(** X15.  What a successful [Update] sets is what later transactions read:
    when the updater's [Set] returned nil and the commit succeeds, [Update]
    returns nil, the committed keyspace is the one the transaction reached,
    and [Get] in any later transaction returns the value (one the codec
    carries faithfully); when the commit fails, [Update] returns the
    engine's error wrapped and the database is as it was. *)
Theorem committed_writes_are_read {TxnAPIT KeyT ValueT ValueT' : Type}
    `{Gob KeyT} `{Gob ValueT} `{Gob ValueT'}
    (db : DB TxnAPIT)
    (single : TxnAPIT -> NamespaceSingle ValueT')
    (multiple : TxnAPIT -> NamespaceMultiple KeyT ValueT)
    (key : KeyT) (value : ValueT) (value' : ValueT') (upd : bool)
    (txn' : badger.Txn) :
  (NamespaceSingle_Set (single (txnAPIBuilder db {| badgertxn := badgertxn_ptr |}))
     value' (badger.NewTransaction true (badgerdb db)) = Returns (None, txn') ->
   gob_roundtrips value' ->
   exists db',
     Update db (fun txnAPI => NamespaceSingle_Set (single txnAPI) value') None
     = Returns (None, db')
     /\ txnAPIBuilder db' = txnAPIBuilder db
     /\ badger.store (badgerdb db') = badger.items txn'
     /\ NamespaceSingle_Get (single (txnAPIBuilder db' {| badgertxn := badgertxn_ptr |}))
          (badger.NewTransaction upd (badgerdb db'))
        = Returns ((value', None), badger.NewTransaction upd (badgerdb db'))
     /\ forall err,
         Update db (fun txnAPI => NamespaceSingle_Set (single txnAPI) value') (Some err)
         = Returns (Some (Errorf "Update" err), db))
  /\ (NamespaceMultiple_Set
        (multiple (txnAPIBuilder db {| badgertxn := badgertxn_ptr |})) key value
        (badger.NewTransaction true (badgerdb db)) = Returns (None, txn') ->
      gob_roundtrips value ->
      exists db',
        Update db (fun txnAPI => NamespaceMultiple_Set (multiple txnAPI) key value) None
        = Returns (None, db')
        /\ txnAPIBuilder db' = txnAPIBuilder db
        /\ badger.store (badgerdb db') = badger.items txn'
        /\ NamespaceMultiple_Get
             (multiple (txnAPIBuilder db' {| badgertxn := badgertxn_ptr |})) key
             (badger.NewTransaction upd (badgerdb db'))
           = Returns ((value, true, None), badger.NewTransaction upd (badgerdb db'))
        /\ forall err,
            Update db (fun txnAPI => NamespaceMultiple_Set (multiple txnAPI) key value)
              (Some err)
            = Returns (Some (Errorf "Update" err), db)).
Proof.
  split.
  - intros S R. unfold Update, badger.Update. rewrite S. simpl.
    apply NamespaceSingle_Set_nil in S as (_ & b & E & _ & ->).
    eexists. split; [reflexivity|]. split; [reflexivity|].
    split; [reflexivity|]. split.
    + eapply NamespaceSingle_Get_present; simpl; [apply lookup_insert|].
      now apply R.
    + intros err. now rewrite with_engine_same.
  - intros S R. unfold Update, badger.Update. rewrite S. simpl.
    apply NamespaceMultiple_Set_nil in S as (_ & kb & vb & K & E & _ & ->).
    eexists. split; [reflexivity|]. split; [reflexivity|].
    split; [reflexivity|]. split.
    + eapply NamespaceMultiple_Get_present; simpl;
        [exact K | apply lookup_insert|].
      now apply R.
    + intros err. now rewrite with_engine_same.
Qed.

Lemma committed_writes_are_read_witness :
  exists db',
    Update empty_db (fun _ => NamespaceSingle_Set DataA 99999%Z) None
    = Returns (None, db')
    /\ badger.store (badgerdb db') = [(string_to_bytes "data_a", enc_99999)]
    /\ NamespaceSingle_Get DataA (badger.NewTransaction false (badgerdb db'))
       = Returns ((99999%Z, None), badger.NewTransaction false (badgerdb db')).
Proof.
  assert (S : NamespaceSingle_Set DataA 99999%Z
                (badger.NewTransaction true (badgerdb empty_db))
              = Returns (None,
                         state_after (NamespaceSingle_Set DataA 99999%Z)
                           (badger.NewTransaction true (badgerdb empty_db))))
    by reflexivity.
  assert (R : gob_roundtrips 99999%Z)
    by (intros b E; vm_compute in E; injection E as <-; reflexivity).
  destruct (proj1 (@committed_writes_are_read PrefixAPI string string Z _ _ _
                     empty_db (fun _ => DataA) Data2 "1234"%string "5678"%string
                     99999%Z false _) S R)
    as (db' & U & _ & C & G & _).
  exists db'. split; [exact U|]. split; [exact C | exact G].
Defined.

(** ** Restoring a backup *)

(** X16.  [LoadBackup] replaces, it does not merge: the engine loads the
    stream into a database that [DropAll] has emptied, so the keyspace
    afterwards and the error returned are those of loading into an empty
    database, the same whatever the database held before.  This holds also
    when the load or the flattening fails: the earlier content is gone
    then as well. *)
Theorem LoadBackup_replaces {TxnAPIT : Type} (Reader : Type)
    (engine_Load : Reader -> nat -> badger.DB -> option error * badger.DB)
    (engine : Engine) (db db2 : DB TxnAPIT) (r : Reader) :
  (exists err,
      LoadBackup engine_Load engine db r
      = (err,
         with_engine db (snd (engine_Load r 64 {| badger.store := [] |})))
      /\ (err = None <->
          fst (engine_Load r 64 {| badger.store := [] |}) = None
          /\ engine_Flatten engine 16
               (snd (engine_Load r 64 {| badger.store := [] |})) = None)
      /\ (forall e, err = Some e -> exists e', e = Errorf "LoadBackup" e'))
  /\ (txnAPIBuilder db = txnAPIBuilder db2 ->
      LoadBackup engine_Load engine db r = LoadBackup engine_Load engine db2 r).
Proof.
  split.
  - unfold LoadBackup. simpl.
    destruct (engine_Load r 64 {| badger.store := [] |}) as [[e|] bdb]; simpl.
    + eexists. split; [reflexivity|]. split.
      * split; [discriminate | intros [D _]; discriminate].
      * intros e0 [= <-]. eauto.
    + destruct (engine_Flatten engine 16 bdb) as [e|];
        eexists; (split; [reflexivity|]); split;
        try (split; [discriminate | intros [_ D]; discriminate]);
        try (intros e0 [= <-]; eauto); try (intros; discriminate).
      split; auto.
  - intros B. unfold LoadBackup, with_engine. simpl. rewrite B.
    destruct (engine_Load r 64 {| badger.store := [] |}) as [[e|] bdb]; simpl; auto.
Qed.

Lemma LoadBackup_replaces_witness :
  txnAPIBuilder sample_db = txnAPIBuilder empty_db
  /\ LoadBackup load_pairs fresh_engine sample_db ([written_data2], None)
     = (None, with_engine sample_db {| badger.store := [written_data2] |})
  /\ LoadBackup load_pairs fresh_engine sample_db
       ([written_data2], Some (AppError "unexpected EOF"))
     = LoadBackup load_pairs fresh_engine empty_db
         ([written_data2], Some (AppError "unexpected EOF"))
  /\ badger.lookup (string_to_bytes "data_a")
       (badger.store
          (badgerdb
             (snd (LoadBackup load_pairs fresh_engine sample_db
                     ([written_data2], Some (AppError "unexpected EOF"))))))
     = None.
Proof.
  assert (B : txnAPIBuilder sample_db = txnAPIBuilder empty_db) by reflexivity.
  split; [exact B|]. split; [reflexivity|]. split; [|reflexivity].
  exact (proj2 (LoadBackup_replaces load_pairs fresh_engine sample_db empty_db
                  ([written_data2], Some (AppError "unexpected EOF"))) B).
Defined.

(** ** What Iter traverses *)

(** X17.  In a transaction whose pairs are in key order and where the bare
    name is not itself a key, [Iter] performs the traversal of the
    specification on exactly the pairs whose key starts with the bytes of
    the name (with no separator: the pairs of the namespace and those of
    every namespace whose name starts with this one), in byte order of the
    full keys: each pair is decoded and shown to the visitor; [stop] ends
    the traversal with no error; a decode error or a visitor error aborts it
    and is returned (wrapped with the context of [Iter]).  A visitor that
    records and never stops has seen exactly the decoded pairs, in that
    order. *)
Theorem Iter_visits_namespace_entries {KeyT ValueT : Type} `{Gob KeyT} `{Gob ValueT}
    (nsm : NamespaceMultiple KeyT ValueT) (txn : badger.Txn) :
  badger.ordered (badger.items txn) ->
  badger.lookup (string_to_bytes (nsm_name nsm)) (badger.items txn) = None ->
  (forall (St : Type) (viewer : KeyT -> ValueT -> St -> (bool * option error) * St)
          (s : St),
      NamespaceMultiple_Iter nsm viewer s txn
      = Returns (visit_pairs nsm viewer
                   (namespace_entries (string_to_bytes (nsm_name nsm))
                      (badger.items txn)) s,
                 txn))
  /\ badger.ordered
       (namespace_entries (string_to_bytes (nsm_name nsm)) (badger.items txn))
  /\ (forall item,
        In item (namespace_entries (string_to_bytes (nsm_name nsm)) (badger.items txn))
        <-> In item (badger.items txn)
            /\ bytes_HasPrefix (badger.Item_Key item)
                 (string_to_bytes (nsm_name nsm)) = true)
  /\ (forall pairs,
        Forall2 (fun item kv => decode_pair nsm item = inl kv)
          (namespace_entries (string_to_bytes (nsm_name nsm)) (badger.items txn))
          pairs ->
        NamespaceMultiple_Iter nsm record_all [] txn = Returns ((None, pairs), txn)).
Proof.
  intros O N. split; [|split; [|split]].
  - intros St viewer s. now apply Iter_entries.
  - now apply filter_ordered.
  - intros item. apply namespace_entries_In.
  - intros pairs F. rewrite Iter_entries by assumption.
    now rewrite (visit_record_all nsm [] F).
Qed.

Lemma Iter_visits_namespace_entries_witness :
  badger.ordered (badger.items sample_txn)
  /\ badger.lookup (string_to_bytes (nsm_name DataB)) (badger.items sample_txn) = None
  /\ NamespaceMultiple_Iter DataB record_all [] sample_txn
     = Returns ((None, [("1234", "5678"); ("abcd", "efgh")]%string), sample_txn)
  /\ NamespaceMultiple_Iter DataB record_first [] sample_txn
     = Returns ((None, [("1234", "5678")]%string), sample_txn).
Proof.
  assert (O : badger.ordered (badger.items sample_txn))
    by (vm_compute; repeat constructor).
  assert (N : badger.lookup (string_to_bytes (nsm_name DataB))
                (badger.items sample_txn) = None) by reflexivity.
  destruct (Iter_visits_namespace_entries DataB sample_txn O N) as (V & _ & _ & A).
  split; [exact O|]. split; [exact N|]. split.
  - apply A. vm_compute. repeat constructor.
  - rewrite V. reflexivity.
Defined.

(** ** Writes the engine refuses *)

(** X18.  A write the engine refuses is returned to the caller, wrapped
    with the operation and the namespace, and nothing is written.  The one
    exception is the single-value [Delete], which answers nil when the
    engine's error is [ErrKeyNotFound].  A transaction of the database
    refuses, among others, every key under the engine's reserved prefix. *)
Theorem engine_refusals_are_returned {KeyT ValueT ValueT' : Type}
    `{Gob KeyT} `{Gob ValueT} `{Gob ValueT'}
    (nsm : NamespaceMultiple KeyT ValueT) (nss : NamespaceSingle ValueT')
    (txn : badger.Txn) (key : KeyT) (value : ValueT) (value' : ValueT')
    (kb vb vb' : bytes) (err : error) :
  badger.update txn = true ->
  (gob_Encode value' = inl vb' ->
   badger.verdict txn (string_to_bytes (nss_name nss)) vb' = Some err ->
   NamespaceSingle_Set nss value' txn
   = Returns (Some (Errorf (op_context "Set" (nss_name nss)) err), txn))
  /\ (badger.verdict txn (string_to_bytes (nss_name nss)) [] = Some err ->
      NamespaceSingle_Delete nss txn
      = Returns (if errors_Is err ErrKeyNotFound then None
                 else Some (Errorf (op_context "Delete" (nss_name nss)) err),
                 txn))
  /\ (gob_Encode key = inl kb -> gob_Encode value = inl vb ->
      badger.verdict txn (addPrefixToKey (string_to_bytes (nsm_name nsm)) kb) vb
      = Some err ->
      NamespaceMultiple_Set nsm key value txn
      = Returns (Some (Errorf (op_context "Set" (nsm_name nsm)) err), txn))
  /\ (gob_Encode key = inl kb ->
      badger.verdict txn (addPrefixToKey (string_to_bytes (nsm_name nsm)) kb) []
      = Some err ->
      NamespaceMultiple_Delete nsm key txn
      = Returns (Some (Errorf (op_context "Delete" (nsm_name nsm)) err), txn))
  /\ (forall (db : badger.DB) (k v : bytes),
        bytes_HasPrefix k (string_to_bytes "!badger!") = true ->
        exists e, badger.verdict (badger.NewTransaction true db) k v = Some e).
Proof.
  intros U. split; [|split; [|split; [|split]]].
  - intros E A. unfold NamespaceSingle_Set. rewrite (encodeGob_ok _ E).
    run_txn. now rewrite U, A.
  - intros A. unfold NamespaceSingle_Delete. run_txn. rewrite U, A. simpl.
    now destruct (errors_Is err ErrKeyNotFound).
  - intros K E A. unfold NamespaceMultiple_Set.
    rewrite (encodeGob_ok _ K), (encodeGob_ok _ E). run_txn. now rewrite U, A.
  - intros K A. unfold NamespaceMultiple_Delete. rewrite (encodeGob_ok _ K).
    run_txn. now rewrite U, A.
  - intros db k v P. simpl. unfold badger.entry_error.
    destruct k as [|x k]; [eauto|]. rewrite P. eauto.
Qed.

Lemma engine_refusals_are_returned_witness :
  NewNamespaceSingle the_txn "!badger!x" = Returns Reserved
  /\ NamespaceSingle_Set Reserved "5678"%string
       (badger.NewTransaction true (badgerdb empty_db))
     = Returns (Some (Errorf "Set `!badger!x`"
                        (EngineError "Key is using a reserved !badger! prefix")),
                badger.NewTransaction true (badgerdb empty_db)).
Proof.
  split; [reflexivity|].
  assert (U : badger.update (badger.NewTransaction true (badgerdb empty_db)) = true)
    by reflexivity.
  apply (proj1 (@engine_refusals_are_returned string string string _ _ _
                  DataB Reserved (badger.NewTransaction true (badgerdb empty_db))
                  "1234"%string "5678"%string "5678"%string
                  enc_1234 enc_5678 enc_5678
                  (EngineError "Key is using a reserved !badger! prefix") U));
    reflexivity.
Defined.

Example long_key_refused :
  NamespaceMultiple_Set DataB long_key "5678"%string
    (badger.NewTransaction true (badgerdb empty_db))
  = Returns (Some (Errorf "Set `data_b`"
                     (EngineError "Key with size 70017 exceeded 65000 limit")),
             badger.NewTransaction true (badgerdb empty_db)).
Proof. vm_compute. reflexivity. Qed.
